(** * kstrace: the command layer of cmd/cmd.go

    A shallow embedding of [Validate], [Run], [processResources] and the
    [RunE] closure of [NewKubeStraceCommand], together with the library
    functions they rely on ([time.ParseDuration], the resource visitor, the
    [kstrace] package entry points), and the properties of the command's
    orchestration: validation, tracer construction, start order and the
    teardown performed by the deferred calls. *)

From Stdlib Require Import ZArith List String Ascii Bool Lia SpecFloat.
From stdpp Require Import base list.
Import ListNotations.

Local Open Scope string_scope.
Local Open Scope Z_scope.

(** ** Machine integers

    Go's [uint64] and [int64] (the representation of [time.Duration]) as
    [Z] with the wrap-around written out. *)
Module Int.

Definition u64 (n : Z) : Z := n mod 2 ^ 64.

Definition i64 (n : Z) : Z := (n + 2 ^ 63) mod 2 ^ 64 - 2 ^ 63.

End Int.

(** ** float64

    [time.ParseDuration] scales the fractional digits in [float64]; the
    operations are those of IEEE 754 binary64, round to nearest even. *)
Module F64.

Definition prec : Z := 53.
Definition emax : Z := 1024.

Definition of_u64 (n : Z) : spec_float := binary_normalize prec emax n 0 false.
Definition mul : spec_float -> spec_float -> spec_float := SFmul prec emax.
Definition div : spec_float -> spec_float -> spec_float := SFdiv prec emax.

(** [uint64(x)] for a float64 [x]: truncation toward zero.  The only
    conversion in [ParseDuration] is applied to a finite, non-negative value
    below 3.6e12. *)
Definition to_u64 (x : spec_float) : Z :=
  match x with
  | S754_finite s m e =>
      let v := if 0 <=? e then Z.pos m * 2 ^ e else Z.pos m / 2 ^ (- e) in
      Int.u64 (if s then - v else v)
  | _ => 0
  end.

End F64.

(** ** Errors

    A Go [error] value.  [fmt.Errorf] keeps its format and arguments; the
    errors of the [time] package keep their kind and the offending text; an
    error produced by a client library (logrus, client-go, cli-runtime,
    kstrace) is opaque to the command and is kept as a tag. *)
Record GroupVersionKind := mkGVK {
  Group : string;
  Version : string;
  Kind : string
}.

Inductive fmt_arg :=
| ArgString (s : string)
| ArgGVK (gvk : GroupVersionKind).

Inductive error :=
| Errorf (format : string) (args : list fmt_arg)
| InvalidDuration (orig : string)
| MissingUnit (orig : string)
| UnknownUnit (u orig : string)
| LibraryError (tag : string).

(** ** time.ParseDuration

    The function of Go's standard library that [Validate] calls, as it
    reads since the magnitude is accumulated in a [uint64] (Go 1.17): an
    optional sign, then either the single digit zero or one or more
    groups of a decimal number, with an optional fraction, and a unit. *)
Module Time.

Definition Nanosecond : Z := 1.
Definition Microsecond : Z := 1000 * Nanosecond.
Definition Millisecond : Z := 1000 * Microsecond.
Definition Second : Z := 1000 * Millisecond.
Definition Minute : Z := 60 * Second.
Definition Hour : Z := 60 * Minute.

Definition byte (c : ascii) : Z := Z.of_N (N_of_ascii c).

Definition isDigit (c : ascii) : bool := (byte "0" <=? byte c) && (byte c <=? byte "9").

Definition isDot (c : ascii) : bool := byte c =? byte ".".

(** [leadingInt] consumes the leading [[0-9]*] of [s]; [None] is
    [errLeadingInt] (overflow). *)
Fixpoint leadingInt_loop (s : string) (x : Z) : option (Z * string) :=
  match s with
  | String c s' =>
      if negb (isDigit c) then Some (x, s)
      else if x >? 2 ^ 63 / 10 then None
      else
        let x' := Int.u64 (Int.u64 (Int.u64 (x * 10) + byte c) - byte "0") in
        if x' >? 2 ^ 63 then None else leadingInt_loop s' x'
  | EmptyString => Some (x, s)
  end.

Definition leadingInt (s : string) : option (Z * string) := leadingInt_loop s 0.

(** [leadingFraction] consumes the leading [[0-9]*] of [s]; on overflow it
    stops accumulating precision. *)
Fixpoint leadingFraction_loop (s : string) (x : Z) (scale : spec_float)
    (overflow : bool) : Z * spec_float * string :=
  match s with
  | String c s' =>
      if negb (isDigit c) then (x, scale, s)
      else if overflow then leadingFraction_loop s' x scale overflow
      else if x >? (2 ^ 63 - 1) / 10 then leadingFraction_loop s' x scale true
      else
        let y := Int.u64 (Int.u64 (Int.u64 (x * 10) + byte c) - byte "0") in
        if y >? 2 ^ 63 then leadingFraction_loop s' x scale true
        else leadingFraction_loop s' y (F64.mul scale (F64.of_u64 10)) false
  | EmptyString => (x, scale, s)
  end.

Definition leadingFraction (s : string) : Z * spec_float * string :=
  leadingFraction_loop s 0 (F64.of_u64 1) false.

(** The unit of a group: the bytes up to the next ['.'] or digit. *)
Fixpoint splitUnit (s : string) : string * string :=
  match s with
  | String c s' =>
      if isDot c || isDigit c then (EmptyString, s)
      else let '(u, rest) := splitUnit s' in (String c u, rest)
  | EmptyString => (EmptyString, s)
  end.

(** The two spellings of the micro sign, as UTF-8 bytes. *)
Definition micro_sign : string := String "194" (String "181" EmptyString).
Definition greek_mu : string := String "206" (String "188" EmptyString).

Definition unitMap (u : string) : option Z :=
  if String.eqb u "ns" then Some Nanosecond
  else if String.eqb u "us" then Some Microsecond
  else if String.eqb u (micro_sign ++ "s") then Some Microsecond
  else if String.eqb u (greek_mu ++ "s") then Some Microsecond
  else if String.eqb u "ms" then Some Millisecond
  else if String.eqb u "s" then Some Second
  else if String.eqb u "m" then Some Minute
  else if String.eqb u "h" then Some Hour
  else None.

(** One pass of the loop [for s != ""]: a number, an optional fraction and
    a unit are consumed and added to [d].  The result is the new [d] and
    the rest of the string. *)
Definition parseGroup (orig s : string) (d : Z) : error + (Z * string) :=
  match s with
  | EmptyString => inl (InvalidDuration orig)
  | String c0 _ =>
      if negb (isDot c0 || isDigit c0) then inl (InvalidDuration orig)
      else
        let pl := String.length s in
        match leadingInt s with
        | None => inl (InvalidDuration orig)
        | Some (v, s1) =>
            let pre := negb (Nat.eqb pl (String.length s1)) in
            let '(f, scale, s2, post) :=
              match s1 with
              | String c1 s1' =>
                  if isDot c1 then
                    let '(f, scale, s2) := leadingFraction s1' in
                    (f, scale, s2, negb (Nat.eqb (String.length s1') (String.length s2)))
                  else (0, F64.of_u64 1, s1, false)
              | EmptyString => (0, F64.of_u64 1, s1, false)
              end in
            if negb pre && negb post then inl (InvalidDuration orig)
            else
              let '(u, s3) := splitUnit s2 in
              if Nat.eqb (String.length u) 0 then inl (MissingUnit orig)
              else
                match unitMap u with
                | None => inl (UnknownUnit u orig)
                | Some unit =>
                    if v >? 2 ^ 63 / unit then inl (InvalidDuration orig)
                    else
                      let v1 := Int.u64 (v * unit) in
                      let v2 :=
                        if f >? 0 then
                          Int.u64 (v1 + F64.to_u64
                            (F64.mul (F64.of_u64 f) (F64.div (F64.of_u64 unit) scale)))
                        else v1 in
                      if (f >? 0) && (v2 >? 2 ^ 63) then inl (InvalidDuration orig)
                      else
                        let d' := Int.u64 (d + v2) in
                        if d' >? 2 ^ 63 then inl (InvalidDuration orig)
                        else inr (d', s3)
                end
        end
  end.

(** The loop itself.  Every pass consumes at least one byte, so a fuel of
    the length of the string is never exhausted ([parseGroups_fuel]). *)
Fixpoint parseGroups (fuel : nat) (orig s : string) (d : Z) : option (error + Z) :=
  match s with
  | EmptyString => Some (inr d)
  | String _ _ =>
      match fuel with
      | O => None
      | S fuel' =>
          match parseGroup orig s d with
          | inl e => Some (inl e)
          | inr (d', s') => parseGroups fuel' orig s' d'
          end
      end
  end.

(** The sign prefix [[-+]?]. *)
Definition signOf (s : string) : bool * string :=
  match s with
  | String c s' =>
      if (byte c =? byte "-") || (byte c =? byte "+") then (byte c =? byte "-", s')
      else (false, s)
  | EmptyString => (false, s)
  end.

Definition ParseDuration (orig : string) : error + Z :=
  let '(neg, s) := signOf orig in
  if String.eqb s "0" then inr 0
  else if String.eqb s "" then inl (InvalidDuration orig)
  else
    match parseGroups (String.length s) orig s 0 with
    | None => inl (InvalidDuration orig)
    | Some (inl e) => inl e
    | Some (inr d) =>
        if neg then inr (Int.i64 (- Int.i64 d))
        else if d >? 2 ^ 63 - 1 then inl (InvalidDuration orig)
        else inr (Int.i64 d)
    end.

End Time.

(** ** Cluster objects *)
Module Corev1.

Record Container := mkContainer { ContainerName : string }.

Record PodSpec := mkPodSpec {
  Containers : list Container;
  NodeName : string
}.

Record Pod := mkPod {
  Name : string;
  Namespace : string;
  Spec : PodSpec
}.

(** The zero value of [corev1.Pod]. *)
Definition zeroPod : Pod := mkPod "" "" (mkPodSpec [] "").

Record NamespaceObj := mkNamespace { NsName : string }.

End Corev1.
Import Corev1.

(** ** What the resource builder yields

    [info.Object] is an interface value: the type switch of
    [processResources] distinguishes a [*corev1.Pod] from every other
    dynamic type.  [info.Mapping.GroupVersionKind] names the kind. *)
Inductive Object :=
| PodObject (p : Pod)
| OtherObject (data : string).

Record Info := mkInfo {
  InfoObject : Object;
  MappingGVK : GroupVersionKind
}.

(** [resource.Builder] as configured by [Complete]. *)
Record Builder := mkBuilder {
  ResourceType : string;
  ResourceArgs : list string;
  NamespaceParam : string
}.

(** [resource.Result]: [r.err], and the (info, err) pairs its visitor
    passes to the visiting function, in order. *)
Record Result := mkResult {
  ResultErr : option error;
  ResultItems : list (Info * option error)
}.

(** [Result.Visit] without [ContinueOnError]: an error held by the result
    is returned at once; otherwise the function is called on each item in
    turn and the first error it returns ends the visit and is returned.
    The visiting function is a closure over [podSlice], threaded as [acc]. *)
Section Visit.
Context {A : Type}.
Variable fn : A -> Info -> option error -> A * option error.

Fixpoint visitItems (items : list (Info * option error)) (acc : A) : A * option error :=
  match items with
  | [] => (acc, None)
  | (info, err) :: rest =>
      match fn acc info err with
      | (acc', Some e) => (acc', Some e)
      | (acc', None) => visitItems rest acc'
      end
  end.

Definition Visit (r : Result) (acc : A) : A * option error :=
  match ResultErr r with
  | Some e => (acc, Some e)
  | None => visitItems (ResultItems r) acc
  end.
End Visit.

(** ** Memory

    [Run] takes the address of the loop variable [targetPod] and allocates
    the tracers; both live on the heap.  A location is an index into the
    store of its type. *)
Definition loc := nat.

Record RestConfig := mkRestConfig { Host : string }.
Record Clientset := mkClientset { ClientsetConfig : RestConfig }.

(** Modelled from the spec: [kstrace.KStracer] and [kstrace.NewKStracer]
    (package pkg/kstrace) are not part of this file.  A Tracer has the
    attributes of section 3 of the specification: a target reference, the
    trace image, the runtime-socket path, the trace duration and the
    output destination, together with the handles and the namespace that
    [NewKStracer] receives.  The target reference is the pointer passed by
    the caller. *)
Record KStracer := mkKStracer {
  k_clientset : option Clientset;
  k_restConfig : option RestConfig;
  k_traceImage : string;
  k_targetPod : loc;
  k_namespace : string;
  k_socketPath : string;
  k_traceTimeout : Z;
  k_outputDirectory : string
}.

Record Heap := mkHeap {
  podCells : list Pod;
  tracerObjs : list KStracer
}.

Definition emptyHeap : Heap := mkHeap [] [].

Definition allocPod (h : Heap) (p : Pod) : loc * Heap :=
  (length (podCells h), mkHeap (podCells h ++ [p]) (tracerObjs h)).

Definition storePod (h : Heap) (l : loc) (p : Pod) : Heap :=
  mkHeap (<[l := p]> (podCells h)) (tracerObjs h).

Definition allocTracer (h : Heap) (t : KStracer) : loc * Heap :=
  (length (tracerObjs h), mkHeap (podCells h) (tracerObjs h ++ [t])).

(** The pod a tracer's target reference denotes in heap [h]. *)
Definition targetOf (h : Heap) (t : loc) : option Pod :=
  match tracerObjs h !! t with
  | Some k => podCells h !! k_targetPod k
  | None => None
  end.

(** ** The environment of one invocation

    Every call that leaves the command (logrus, client-go, cli-runtime,
    kstrace) gets its result from the environment.  Each tracer is started,
    stopped and cleaned up at most once per run, so a result per tracer
    covers every behaviour of the cluster.  [CreateNamespace] returns a
    pointer to the namespace object ([None] is nil) together with its
    error; [Run] reads [ns.Name] through that pointer. *)
Record Env := mkEnv {
  ParseLevel : string -> nat * option error;
  ClientConfig : option RestConfig * option error;
  NewForConfig : option RestConfig -> option Clientset * option error;
  KubeConfigNamespace : string * option error;
  Do : Builder -> Result;
  CreateNamespace : option Clientset -> option NamespaceObj * option error;
  Start : loc -> option error;
  Stop : loc -> option error;
  Cleanup : loc -> option error;
  CleanupNamespace : string -> option error
}.

(** The calls into package kstrace, in the order they happen.  A call that
    returns an error carries it; [CallStart] also carries the pod that the
    tracer's target reference denotes when [Start] is invoked. *)
Inductive Event :=
| CallCreateNamespace
| CallNewKStracer (t : loc)
| CallStart (t : loc) (target : option Pod) (r : option error)
| CallStop (t : loc) (r : option error)
| CallCleanup (t : loc) (r : option error)
| CallCleanupNamespace (name : string) (r : option error).

(** A function either returns its error value or panics. *)
Inductive outcome :=
| Return (err : option error)
| Panic.

(** ** The command *)
Record KubeStraceCommand := mkCommand {
  traceImage : string;
  traceTimeoutStr : string;
  socketPath : string;
  logLevelStr : string;
  outputDirectory : string;
  logLevel : nat;
  traceTimeout : Z;
  tracers : list loc;
  targetPods : list Pod;
  clientset : option Clientset;
  builder : option Builder;
  restConfig : option RestConfig
}.

Definition set_logLevel (k : KubeStraceCommand) (v : nat) : KubeStraceCommand :=
  mkCommand (traceImage k) (traceTimeoutStr k) (socketPath k) (logLevelStr k)
    (outputDirectory k) v (traceTimeout k) (tracers k) (targetPods k)
    (clientset k) (builder k) (restConfig k).

Definition set_traceTimeout (k : KubeStraceCommand) (v : Z) : KubeStraceCommand :=
  mkCommand (traceImage k) (traceTimeoutStr k) (socketPath k) (logLevelStr k)
    (outputDirectory k) (logLevel k) v (tracers k) (targetPods k)
    (clientset k) (builder k) (restConfig k).

Definition set_tracers (k : KubeStraceCommand) (v : list loc) : KubeStraceCommand :=
  mkCommand (traceImage k) (traceTimeoutStr k) (socketPath k) (logLevelStr k)
    (outputDirectory k) (logLevel k) (traceTimeout k) v (targetPods k)
    (clientset k) (builder k) (restConfig k).

Definition set_targetPods (k : KubeStraceCommand) (v : list Pod) : KubeStraceCommand :=
  mkCommand (traceImage k) (traceTimeoutStr k) (socketPath k) (logLevelStr k)
    (outputDirectory k) (logLevel k) (traceTimeout k) (tracers k) v
    (clientset k) (builder k) (restConfig k).

Definition set_clientset (k : KubeStraceCommand) (v : option Clientset) : KubeStraceCommand :=
  mkCommand (traceImage k) (traceTimeoutStr k) (socketPath k) (logLevelStr k)
    (outputDirectory k) (logLevel k) (traceTimeout k) (tracers k) (targetPods k)
    v (builder k) (restConfig k).

Definition set_builder (k : KubeStraceCommand) (v : option Builder) : KubeStraceCommand :=
  mkCommand (traceImage k) (traceTimeoutStr k) (socketPath k) (logLevelStr k)
    (outputDirectory k) (logLevel k) (traceTimeout k) (tracers k) (targetPods k)
    (clientset k) v (restConfig k).

Definition set_restConfig (k : KubeStraceCommand) (v : option RestConfig) : KubeStraceCommand :=
  mkCommand (traceImage k) (traceTimeoutStr k) (socketPath k) (logLevelStr k)
    (outputDirectory k) (logLevel k) (traceTimeout k) (tracers k) (targetPods k)
    (clientset k) (builder k) v.

(** [NewKubeStraceDefaults], and the command as [NewKubeStraceCommand]
    creates it before the flags are parsed. *)
Definition NewKubeStraceDefaults : KubeStraceCommand :=
  mkCommand "quay.io/mwasher/crictl:0.0.2" "0" "/run/crio/crio.sock" "info"
    "strace-collection" 0%nat 0 [] [] None None None.

Definition configureClientset (env : Env) (kCmd : KubeStraceCommand)
    : option error * KubeStraceCommand :=
  let '(cfg, err) := ClientConfig env in
  let kCmd := set_restConfig kCmd cfg in
  match err with
  | Some e => (Some e, kCmd)
  | None =>
      let '(cs, err) := NewForConfig env (restConfig kCmd) in
      let kCmd := set_clientset kCmd cs in
      match err with
      | Some e => (Some e, kCmd)
      | None => (None, kCmd)
      end
  end.

Definition Complete (env : Env) (kCmd : KubeStraceCommand) (args : list string)
    : option error * KubeStraceCommand :=
  let '(lvl, err) := ParseLevel env (logLevelStr kCmd) in
  let kCmd := set_logLevel kCmd lvl in
  match err with
  | Some e => (Some e, kCmd)
  | None =>
      match configureClientset env kCmd with
      | (Some e, kCmd) => (Some e, kCmd)
      | (None, kCmd) =>
          match KubeConfigNamespace env with
          | (_, Some e) => (Some e, kCmd)
          | (namespace, None) =>
              (None, set_builder kCmd (Some (mkBuilder "pod" args namespace)))
          end
      end
  end.

(** The closure passed to [Visit]; [podSlice] is its captured variable. *)
Definition visitPod (podSlice : list Pod) (info : Info) (err : option error)
    : list Pod * option error :=
  match err with
  | Some e => (podSlice, Some e)
  | None =>
      match InfoObject info with
      | PodObject obj => ((podSlice ++ [obj])%list, None)
      | OtherObject _ =>
          (podSlice, Some (Errorf "%q not supported by kstrace" [ArgGVK (MappingGVK info)]))
      end
  end.

(** The returned slice is [nil] whenever the error is not. *)
Definition processResources (env : Env) (b : Builder) : list Pod * option error :=
  let r := Do env b in
  match Visit visitPod r [] with
  | (_, Some e) => ([], Some e)
  | (podSlice, None) => (podSlice, None)
  end.

Definition Validate (env : Env) (kCmd : KubeStraceCommand) : outcome * KubeStraceCommand :=
  match builder kCmd with
  | None => (Panic, kCmd)
  | Some b =>
      let '(pods, err) := processResources env b in
      let kCmd := set_targetPods kCmd pods in
      match err with
      | Some e => (Return (Some e), kCmd)
      | None =>
          match targetPods kCmd with
          | [] => (Return (Some (Errorf "a target pod must be defined" [])), kCmd)
          | pod0 :: _ =>
              if (1 <? length (targetPods kCmd))%nat && String.eqb (outputDirectory kCmd) "-"
              then (Return (Some (Errorf
                     "cannot have multiple target pods but output to standard out" [])), kCmd)
              else if (1 <? length (Containers (Spec pod0)))%nat
                      && String.eqb (outputDirectory kCmd) "-"
              then (Return (Some (Errorf
                     "there are multiple containers defined for pod %q. unable to output to standard out for pods with multiple containers"
                     [ArgString (Name pod0)])), kCmd)
              else
                match Time.ParseDuration (traceTimeoutStr kCmd) with
                | inl e => (Return (Some e), set_traceTimeout kCmd 0)
                | inr d => (Return None, set_traceTimeout kCmd d)
                end
          end
      end
  end.

(** ** Run *)

(** Modelled from the spec: [kstrace.NewKStracer] (package pkg/kstrace) is
    not part of this file; it builds the Tracer from its arguments and
    keeps the target reference it is given. *)
Definition NewKStracer (cs : option Clientset) (cfg : option RestConfig)
    (image : string) (targetPod : loc) (namespace socket : string)
    (timeout : Z) (output : string) : KStracer :=
  mkKStracer cs cfg image targetPod namespace socket timeout output.

(** The scope of the variable of a [for ... := range] statement: one
    variable for the whole statement, assigned anew in each iteration (the
    language up to Go 1.21), or a new variable in each iteration (modules
    that declare Go 1.22 or later).  The module file of the repository is
    not among the sources. *)
Inductive LoopVar :=
| PerLoop
| PerIteration.

(** A deferred call; its arguments and its receiver were evaluated by the
    [defer] statement. *)
Inductive Deferred :=
| DeferCleanupNamespace (name : string)
| DeferCleanup (t : loc)
| DeferStop (t : loc).

(** Running a deferred call discards what it returns. *)
Definition runDeferred (env : Env) (d : Deferred) : Event :=
  match d with
  | DeferCleanupNamespace name => CallCleanupNamespace name (CleanupNamespace env name)
  | DeferCleanup t => CallCleanup t (Cleanup env t)
  | DeferStop t => CallStop t (Stop env t)
  end.

(** The deferred calls run when the function exits, last registered first;
    the stack is kept with its top at the head. *)
Definition runDefers (env : Env) (defers : list Deferred) : list Event :=
  map (runDeferred env) defers.

Section TracerConstruction.
(** [bind h pod] gives the loop variable [targetPod] the value [pod] for
    one iteration and returns its address. *)
Variable bind : Heap -> Pod -> loc * Heap.
Variable kCmd : KubeStraceCommand.
Variable nsName : string.

(** [for _, targetPod := range kCmd.targetPods]; [ts] is [kCmd.tracers]. *)
Fixpoint constructTracers (pods : list Pod) (h : Heap) (ts : list loc)
    : Heap * list loc * list Event :=
  match pods with
  | [] => (h, ts, [])
  | pod :: rest =>
      let '(targetPod, h) := bind h pod in
      let '(tracer, h) :=
        allocTracer h
          (NewKStracer (clientset kCmd) (restConfig kCmd) (traceImage kCmd)
             targetPod nsName (socketPath kCmd) (traceTimeout kCmd)
             (outputDirectory kCmd)) in
      let '(h, ts, evs) := constructTracers rest h (ts ++ [tracer])%list in
      (h, ts, CallNewKStracer tracer :: evs)
  end.
End TracerConstruction.

Definition rangeTargetPods (sem : LoopVar) (kCmd : KubeStraceCommand)
    (nsName : string) (h : Heap) : Heap * list loc * list Event :=
  match sem with
  | PerLoop =>
      let '(cell, h) := allocPod h zeroPod in
      constructTracers (fun h pod => (cell, storePod h cell pod)) kCmd nsName
        (targetPods kCmd) h (tracers kCmd)
  | PerIteration =>
      constructTracers allocPod kCmd nsName (targetPods kCmd) h (tracers kCmd)
  end.

(** [for _, tracer := range kCmd.tracers]: the events, the stack of
    deferred calls when the loop is left, and the error of the [return]
    inside the loop, if it was taken. *)
Fixpoint startTracers (env : Env) (h : Heap) (ts : list loc) (defers : list Deferred)
    : list Event * list Deferred * option error :=
  match ts with
  | [] => ([], defers, None)
  | tracer :: rest =>
      let err := Start env tracer in
      let ev := CallStart tracer (targetOf h tracer) err in
      let defers := DeferStop tracer :: DeferCleanup tracer :: defers in
      match err with
      | Some e => ([ev], defers, Some e)
      | None =>
          let '(evs, defers, ret) := startTracers env h rest defers in
          (ev :: evs, defers, ret)
      end
  end.

(** [ns.Name] is evaluated by the [defer] statement, before [err] is
    looked at: a nil [ns] panics there. *)
Definition Run (sem : LoopVar) (env : Env) (kCmd : KubeStraceCommand) (h : Heap)
    : outcome * KubeStraceCommand * Heap * list Event :=
  let '(ns, err) := CreateNamespace env (clientset kCmd) in
  match ns with
  | None => (Panic, kCmd, h, [CallCreateNamespace])
  | Some ns =>
      let defers := [DeferCleanupNamespace (NsName ns)] in
      match err with
      | Some e =>
          (Return (Some e), kCmd, h, CallCreateNamespace :: runDefers env defers)
      | None =>
          let '(h, ts, evs1) := rangeTargetPods sem kCmd (NsName ns) h in
          let kCmd := set_tracers kCmd ts in
          let '(evs2, defers, ret) := startTracers env h (tracers kCmd) defers in
          (Return ret, kCmd, h,
           CallCreateNamespace :: (evs1 ++ evs2 ++ runDefers env defers)%list)
      end
  end.

(** The [RunE] closure of [NewKubeStraceCommand]. *)
Definition RunE (sem : LoopVar) (env : Env) (kCmd : KubeStraceCommand)
    (args : list string) (h : Heap)
    : outcome * KubeStraceCommand * Heap * list Event :=
  match Complete env kCmd args with
  | (Some e, kCmd) => (Return (Some e), kCmd, h, [])
  | (None, kCmd) =>
      match Validate env kCmd with
      | (Return (Some e), kCmd) => (Return (Some e), kCmd, h, [])
      | (Panic, kCmd) => (Panic, kCmd, h, [])
      | (Return None, kCmd) => Run sem env kCmd h
      end
  end.

(** ** Names for the parts of a run *)

(** The tracers of the command once [Run] has constructed its own: those
    already held, then one new object per target pod. *)
Definition allTracers (kCmd : KubeStraceCommand) (h : Heap) : list loc :=
  (tracers kCmd ++ seq (length (tracerObjs h)) (length (targetPods kCmd)))%list.

Definition startEvent (env : Env) (h : Heap) (t : loc) : Event :=
  CallStart t (targetOf h t) (Start env t).

(** Tearing one tracer down: [Stop], then [Cleanup]. *)
Definition teardown (env : Env) (t : loc) : list Event :=
  [CallStop t (Stop env t); CallCleanup t (Cleanup env t)].

Definition deferredFor (t : loc) : list Deferred := [DeferStop t; DeferCleanup t].

Definition outcomeOf (r : outcome * KubeStraceCommand * Heap * list Event) : outcome :=
  r.1.1.1.

Definition heapOf (r : outcome * KubeStraceCommand * Heap * list Event) : Heap :=
  r.1.2.

Definition traceOf (r : outcome * KubeStraceCommand * Heap * list Event) : list Event :=
  r.2.

Definition isPodObject (info : Info) : bool :=
  match InfoObject info with
  | PodObject _ => true
  | OtherObject _ => false
  end.

Definition unsupported (info : Info) : error :=
  Errorf "%q not supported by kstrace" [ArgGVK (MappingGVK info)].

(** The tracer [Run] builds around the target reference [cell]. *)
Definition tracerFor (kCmd : KubeStraceCommand) (nsName : string) (cell : loc) : KStracer :=
  NewKStracer (clientset kCmd) (restConfig kCmd) (traceImage kCmd) cell nsName
    (socketPath kCmd) (traceTimeout kCmd) (outputDirectory kCmd).

(** An item the visitor resolved without error to a Pod. *)
Definition resolvedPod (item : Info * option error) : bool :=
  match item with
  | (info, None) => isPodObject info
  | (_, Some _) => false
  end.

Definition podOfItem (item : Info * option error) : list Pod :=
  match InfoObject item.1 with
  | PodObject p => [p]
  | OtherObject _ => []
  end.

(** What [Validate] returns once the targets passed its checks: the
    result of parsing the trace timeout. *)
Definition timeoutOutcome (kCmd : KubeStraceCommand) : outcome :=
  match Time.ParseDuration (traceTimeoutStr kCmd) with
  | inl e => Return (Some e)
  | inr _ => Return None
  end.

Definition commandOf (r : outcome * KubeStraceCommand * Heap * list Event)
    : KubeStraceCommand :=
  r.1.1.2.

(** The kinds of call in a trace. *)
Definition isStart (ev : Event) : bool :=
  match ev with CallStart _ _ _ => true | _ => false end.

Definition isStop (ev : Event) : bool :=
  match ev with CallStop _ _ => true | _ => false end.

Definition isCleanup (ev : Event) : bool :=
  match ev with CallCleanup _ _ => true | _ => false end.

Definition isNamespaceCall (ev : Event) : bool :=
  match ev with
  | CallCreateNamespace | CallCleanupNamespace _ _ => true
  | _ => false
  end.

(** The flags, the level and the handles of a command: everything but
    the state that [Validate] and [Run] write. *)
Definition sameSettings (k k' : KubeStraceCommand) : Prop :=
  traceImage k' = traceImage k
  /\ traceTimeoutStr k' = traceTimeoutStr k
  /\ socketPath k' = socketPath k
  /\ logLevelStr k' = logLevelStr k
  /\ outputDirectory k' = outputDirectory k
  /\ logLevel k' = logLevel k
  /\ clientset k' = clientset k
  /\ builder k' = builder k
  /\ restConfig k' = restConfig k.

(** A string of decimal digits only. *)
Fixpoint allDigits (s : string) : bool :=
  match s with
  | EmptyString => true
  | String c s' => Time.isDigit c && allDigits s'
  end.

(** The same cluster with other results for the cleanup calls. *)
Definition withCleanups (env : Env) (stop cleanup : loc -> option error)
    (cleanupNs : string -> option error) : Env :=
  mkEnv (ParseLevel env) (ClientConfig env) (NewForConfig env)
        (KubeConfigNamespace env) (Do env) (CreateNamespace env)
        (Start env) stop cleanup cleanupNs.

(** ** A concrete cluster for examples *)
Module Example.

Definition podOf (name : string) (containers : list string) : Pod :=
  mkPod name "default" (mkPodSpec (map mkContainer containers) "node-1").

Definition web : Pod := podOf "web-1" ["app"].
Definition db : Pod := podOf "db-1" ["postgres"].
Definition mesh : Pod := podOf "mesh-1" ["app"; "sidecar"].

Definition podGVK : GroupVersionKind := mkGVK "" "v1" "Pod".
Definition deploymentGVK : GroupVersionKind := mkGVK "apps" "v1" "Deployment".

Definition podItem (p : Pod) : Info * option error := (mkInfo (PodObject p) podGVK, None).
Definition deploymentItem : Info * option error :=
  (mkInfo (OtherObject "deployment/api") deploymentGVK, None).

Definition config : RestConfig := mkRestConfig "https://cluster.local".

(** A cluster where every call succeeds and the builder resolves to
    [items]. *)
Definition cluster (items : list (Info * option error)) : Env :=
  mkEnv (fun _ => (4%nat, None))
        (Some config, None)
        (fun _ => (Some (mkClientset config), None))
        ("default", None)
        (fun _ => mkResult None items)
        (fun _ => (Some (mkNamespace "kstrace-x7k2p"), None))
        (fun _ => None) (fun _ => None) (fun _ => None) (fun _ => None).

Definition withStart (env : Env) (start : loc -> option error) : Env :=
  mkEnv (ParseLevel env) (ClientConfig env) (NewForConfig env)
        (KubeConfigNamespace env) (Do env) (CreateNamespace env)
        start (Stop env) (Cleanup env) (CleanupNamespace env).

Definition withCreateNamespace (env : Env)
    (r : option NamespaceObj * option error) : Env :=
  mkEnv (ParseLevel env) (ClientConfig env) (NewForConfig env)
        (KubeConfigNamespace env) (Do env) (fun _ => r)
        (Start env) (Stop env) (Cleanup env) (CleanupNamespace env).

Definition withFlags (k : KubeStraceCommand) (timeout output : string) : KubeStraceCommand :=
  mkCommand (traceImage k) timeout (socketPath k) (logLevelStr k) output
    (logLevel k) (traceTimeout k) (tracers k) (targetPods k) (clientset k)
    (builder k) (restConfig k).

(** The command as [Complete] and [Validate] leave it in [cluster] when
    the builder resolved to [pods]. *)
Definition validated (pods : list Pod) : KubeStraceCommand :=
  mkCommand "quay.io/mwasher/crictl:0.0.2" "0" "/run/crio/crio.sock" "info"
    "strace-collection" 4%nat 0 [] pods (Some (mkClientset config))
    (Some (mkBuilder "pod" (map Name pods) "default")) (Some config).

Definition forbidden : error := LibraryError "pods is forbidden".

(** [Start] fails for the tracer at location [t]. *)
Definition failingAt (t : loc) : loc -> option error :=
  fun t' => if Nat.eqb t' t then Some forbidden else None.

(** Three validated targets in a cluster that refuses the second helper
    pod. *)
Definition three : KubeStraceCommand := validated [web; db; mesh].
Definition refusing : Env := withStart (cluster []) (failingAt 1%nat).
Definition runNamespace : NamespaceObj := mkNamespace "kstrace-x7k2p".

(** The command after [Complete] in [cluster], with the given flags. *)
Definition completed (args : list string) (timeout output : string) : KubeStraceCommand :=
  mkCommand "quay.io/mwasher/crictl:0.0.2" timeout "/run/crio/crio.sock" "info"
    output 4%nat 0 [] [] (Some (mkClientset config))
    (Some (mkBuilder "pod" args "default")) (Some config).

(** A cluster in which every cleanup call fails. *)
Definition gone : error := LibraryError "the server could not find the requested resource".
Definition leaking : Env :=
  withCleanups (cluster []) (fun _ => Some gone) (fun _ => Some gone) (fun _ => Some gone).

End Example.

(** * Properties *)

(** ** Machine integers *)

Lemma u64_small (n : Z) : 0 <= n < 2 ^ 64 -> Int.u64 n = n.
Proof. intros H. unfold Int.u64. apply Z.mod_small. exact H. Qed.

Lemma i64_small (n : Z) : - 2 ^ 63 <= n < 2 ^ 63 -> Int.i64 n = n.
Proof. intros H. unfold Int.i64. rewrite Z.mod_small; lia. Qed.

Lemma i64_range (n : Z) : - 2 ^ 63 <= Int.i64 n < 2 ^ 63.
Proof.
  unfold Int.i64.
  pose proof (Z.mod_pos_bound (n + 2 ^ 63) (2 ^ 64) ltac:(lia)). lia.
Qed.

(** ** The start loop *)

Lemma startTracers_ok env h ts defers :
  Forall (fun t => Start env t = None) ts ->
  startTracers env h ts defers
  = (map (startEvent env h) ts,
     (flat_map deferredFor (rev ts) ++ defers)%list,
     None).
Proof.
  intros Hall. revert defers.
  induction Hall as [|t ts Ht _ IH]; intros defers; simpl.
  - reflexivity.
  - rewrite Ht, IH. unfold startEvent at 2. rewrite Ht.
    rewrite flat_map_app. simpl. rewrite <- app_assoc. reflexivity.
Qed.

Lemma startTracers_fail env h l1 t l2 e defers :
  Forall (fun t' => Start env t' = None) l1 ->
  Start env t = Some e ->
  startTracers env h (l1 ++ t :: l2) defers
  = (map (startEvent env h) (l1 ++ [t]),
     (flat_map deferredFor (rev (l1 ++ [t])) ++ defers)%list,
     Some e).
Proof.
  intros Hall Ht. revert defers.
  induction Hall as [|a l1 Ha _ IH]; intros defers; simpl.
  - rewrite Ht. unfold startEvent. rewrite Ht. reflexivity.
  - rewrite Ha, IH. unfold startEvent at 2. rewrite Ha.
    rewrite !flat_map_app. simpl. rewrite <- !app_assoc. reflexivity.
Qed.

(** Either every tracer starts, or the list splits at the first tracer
    whose [Start] fails. *)
Lemma first_failure env (ts : list loc) :
  Forall (fun t => Start env t = None) ts
  \/ exists l1 t l2 e,
       ts = (l1 ++ t :: l2)%list
       /\ Forall (fun t' => Start env t' = None) l1
       /\ Start env t = Some e.
Proof.
  induction ts as [|a ts IH].
  - left. constructor.
  - destruct (Start env a) as [e|] eqn:Ha.
    + right. exists [], a, ts, e. repeat split; [constructor | exact Ha].
    + destruct IH as [IH | (l1 & t & l2 & e & -> & Hl1 & Ht)].
      * left. constructor; assumption.
      * right. exists (a :: l1), t, l2, e. repeat split; [constructor; assumption | exact Ht].
Qed.

Lemma runDefers_teardown env ts defers :
  runDefers env (flat_map deferredFor ts ++ defers)
  = (flat_map (teardown env) ts ++ runDefers env defers)%list.
Proof.
  unfold runDefers. rewrite map_app. f_equal.
  induction ts as [|t ts IH]; simpl; [reflexivity | now rewrite IH].
Qed.

(** ** The construction loop *)

Section ConstructionFacts.
Variable bind : Heap -> Pod -> loc * Heap.
Hypothesis bind_tracerObjs : forall h p, tracerObjs (bind h p).2 = tracerObjs h.
Variable kCmd : KubeStraceCommand.
Variable nsName : string.

(** One tracer is allocated per pod, at consecutive locations, and
    appended to the list in that order. *)
Lemma constructTracers_shape (pods : list Pod) : forall (h : Heap) (ts : list loc),
  exists h',
    constructTracers bind kCmd nsName pods h ts
    = (h',
       (ts ++ seq (length (tracerObjs h)) (length pods))%list,
       map CallNewKStracer (seq (length (tracerObjs h)) (length pods)))
    /\ length (tracerObjs h') = (length (tracerObjs h) + length pods)%nat.
Proof.
  induction pods as [|pod rest IH]; intros h ts; simpl.
  - exists h. rewrite app_nil_r. split; [reflexivity | lia].
  - pose proof (bind_tracerObjs h pod) as Hb.
    destruct (bind h pod) as [cell h1]. simpl in Hb.
    unfold allocTracer.
    edestruct IH as (h' & Heq & Hlen). rewrite Heq. clear Heq.
    simpl in *. rewrite length_app in *. simpl in *. rewrite Hb in *.
    exists h'. split; [|lia].
    rewrite <- app_assoc.
    replace (length (tracerObjs h) + 1)%nat with (S (length (tracerObjs h))) by lia.
    reflexivity.
Qed.
End ConstructionFacts.

Lemma rangeTargetPods_shape sem kCmd nsName h :
  exists h',
    rangeTargetPods sem kCmd nsName h
    = (h', allTracers kCmd h,
       map CallNewKStracer (seq (length (tracerObjs h)) (length (targetPods kCmd)))).
Proof.
  unfold rangeTargetPods, allTracers. destruct sem.
  - simpl.
    destruct (constructTracers_shape
                (fun h0 pod => (length (podCells h), storePod h0 (length (podCells h)) pod))
                ltac:(reflexivity) kCmd nsName (targetPods kCmd)
                (mkHeap (podCells h ++ [zeroPod]) (tracerObjs h)) (tracers kCmd))
      as (h' & Heq & _).
    exists h'. exact Heq.
  - destruct (constructTracers_shape allocPod ltac:(reflexivity) kCmd nsName
                (targetPods kCmd) h (tracers kCmd)) as (h' & Heq & _).
    exists h'. exact Heq.
Qed.

(** ** The shape of every run that got its namespace

    The calls of [Run], in order: the namespace, one construction per
    target pod, the starts up to the first failure, then the deferred
    calls. *)
Lemma Run_shape sem env kCmd h ns :
  CreateNamespace env (clientset kCmd) = (Some ns, None) ->
  exists h' started ret,
    Run sem env kCmd h
    = (Return ret, set_tracers kCmd (allTracers kCmd h), h',
       CallCreateNamespace ::
       (map CallNewKStracer (seq (length (tracerObjs h)) (length (targetPods kCmd)))
        ++ map (startEvent env h') started
        ++ flat_map (teardown env) (rev started)
        ++ [CallCleanupNamespace (NsName ns) (CleanupNamespace env (NsName ns))])%list)
    /\ ((started = allTracers kCmd h /\ ret = None
         /\ Forall (fun t => Start env t = None) started)
        \/ exists l1 t l2 e,
             allTracers kCmd h = (l1 ++ t :: l2)%list
             /\ started = (l1 ++ [t])%list /\ ret = Some e
             /\ Forall (fun t' => Start env t' = None) l1
             /\ Start env t = Some e).
Proof.
  intros Hns. unfold Run. rewrite Hns.
  destruct (rangeTargetPods_shape sem kCmd (NsName ns) h) as (h' & ->).
  cbn [tracers set_tracers].
  destruct (first_failure env (allTracers kCmd h))
    as [Hall | (l1 & t & l2 & e & Heq & Hl1 & Ht)].
  - exists h', (allTracers kCmd h), None.
    rewrite (startTracers_ok _ _ _ _ Hall), runDefers_teardown.
    split; [reflexivity | left; auto].
  - exists h', (l1 ++ [t])%list, (Some e).
    rewrite Heq, (startTracers_fail _ _ _ _ _ _ _ Hl1 Ht), runDefers_teardown.
    split; [reflexivity | right; exists l1, t, l2, e; auto].
Qed.

(** ** Teardown *)

(** C3. On every return from [Run] after the namespace was created, the
    calls that follow the constructions are: [Start] on the started
    tracers in order; then, from the last started tracer back to the
    first, [Stop] followed by [Cleanup]; and [CleanupNamespace] as the
    very last call, after every [Stop] and [Cleanup]. *)
Theorem C3_teardown_reverse_of_start sem env kCmd h ns :
  CreateNamespace env (clientset kCmd) = (Some ns, None) ->
  exists started notStarted ret,
    allTracers kCmd h = (started ++ notStarted)%list
    /\ outcomeOf (Run sem env kCmd h) = Return ret
    /\ traceOf (Run sem env kCmd h)
       = CallCreateNamespace ::
         (map CallNewKStracer (seq (length (tracerObjs h)) (length (targetPods kCmd)))
          ++ map (startEvent env (heapOf (Run sem env kCmd h))) started
          ++ flat_map (teardown env) (rev started)
          ++ [CallCleanupNamespace (NsName ns) (CleanupNamespace env (NsName ns))])%list.
Proof.
  intros Hns.
  destruct (Run_shape sem env kCmd h ns Hns) as (h' & started & ret & Heq & Hcase).
  exists started.
  destruct Hcase as [(-> & _) | (l1 & t & l2 & e & Hsplit & -> & _)].
  - exists [], ret. rewrite Heq, app_nil_r. repeat split.
  - exists l2, ret. rewrite Heq, Hsplit, <- app_assoc. repeat split.
Qed.

Lemma C3_teardown_reverse_of_start_witness :
  CreateNamespace Example.refusing (clientset Example.three)
  = (Some Example.runNamespace, None)
  /\ exists started notStarted ret,
       allTracers Example.three emptyHeap = (started ++ notStarted)%list
       /\ outcomeOf (Run PerLoop Example.refusing Example.three emptyHeap) = Return ret
       /\ traceOf (Run PerLoop Example.refusing Example.three emptyHeap)
          = CallCreateNamespace ::
            (map CallNewKStracer (seq 0%nat 3%nat)
             ++ map (startEvent Example.refusing
                       (heapOf (Run PerLoop Example.refusing Example.three emptyHeap)))
                    started
             ++ flat_map (teardown Example.refusing) (rev started)
             ++ [CallCleanupNamespace "kstrace-x7k2p"
                   (CleanupNamespace Example.refusing "kstrace-x7k2p")])%list.
Proof.
  split; [reflexivity|].
  apply (C3_teardown_reverse_of_start PerLoop Example.refusing Example.three
           emptyHeap Example.runNamespace).
  reflexivity.
Defined.

(** C4. When the [Start] of a tracer returns an error, [Run] returns that
    error, no later tracer is started, and [Stop] and [Cleanup] are called
    on every tracer whose [Start] was called, the failing one included,
    before [Run] returns. *)
Theorem C4_start_failure_still_tears_down sem env kCmd h ns l1 t l2 e :
  CreateNamespace env (clientset kCmd) = (Some ns, None) ->
  allTracers kCmd h = (l1 ++ t :: l2)%list ->
  Forall (fun t' => Start env t' = None) l1 ->
  Start env t = Some e ->
  outcomeOf (Run sem env kCmd h) = Return (Some e)
  /\ traceOf (Run sem env kCmd h)
     = CallCreateNamespace ::
       (map CallNewKStracer (seq (length (tracerObjs h)) (length (targetPods kCmd)))
        ++ map (startEvent env (heapOf (Run sem env kCmd h))) (l1 ++ [t])
        ++ flat_map (teardown env) (rev (l1 ++ [t]))
        ++ [CallCleanupNamespace (NsName ns) (CleanupNamespace env (NsName ns))])%list.
Proof.
  intros Hns Hsplit Hl1 Ht.
  unfold Run. rewrite Hns.
  destruct (rangeTargetPods_shape sem kCmd (NsName ns) h) as (h' & ->).
  cbn [tracers set_tracers]. rewrite Hsplit.
  rewrite (startTracers_fail _ _ _ _ _ _ _ Hl1 Ht), runDefers_teardown.
  split; reflexivity.
Qed.

Lemma C4_start_failure_still_tears_down_witness :
  CreateNamespace Example.refusing (clientset Example.three) = (Some Example.runNamespace, None)
  /\ allTracers Example.three emptyHeap = ([0%nat] ++ 1%nat :: [2%nat])%list
  /\ Forall (fun t' => Start Example.refusing t' = None) [0%nat]
  /\ Start Example.refusing 1%nat = Some Example.forbidden
  /\ outcomeOf (Run PerLoop Example.refusing Example.three emptyHeap) = Return (Some Example.forbidden)
  /\ traceOf (Run PerLoop Example.refusing Example.three emptyHeap)
     = CallCreateNamespace ::
       (map CallNewKStracer (seq 0%nat 3%nat)
        ++ map (startEvent Example.refusing (heapOf (Run PerLoop Example.refusing Example.three emptyHeap))) [0%nat; 1%nat]
        ++ flat_map (teardown Example.refusing) [1%nat; 0%nat]
        ++ [CallCleanupNamespace "kstrace-x7k2p" None])%list.
Proof.
  assert (H0 : Forall (fun t' => Start Example.refusing t' = None) [0%nat])
    by (constructor; [reflexivity | constructor]).
  split; [reflexivity|]. split; [reflexivity|]. split; [exact H0|].
  split; [reflexivity|].
  apply (C4_start_failure_still_tears_down PerLoop
           Example.refusing
           Example.three
           emptyHeap Example.runNamespace [0%nat] 1%nat [2%nat]
           Example.forbidden);
    [reflexivity | reflexivity | exact H0 | reflexivity].
Defined.

(** ** The error returned by Run *)

Lemma startTracers_withCleanups env stop cleanup cleanupNs h ts defers :
  startTracers (withCleanups env stop cleanup cleanupNs) h ts defers
  = startTracers env h ts defers.
Proof.
  revert defers. induction ts as [|t ts IH]; intros defers; simpl.
  - reflexivity.
  - rewrite IH. reflexivity.
Qed.

(** C7. The value [Run] returns does not depend on what the deferred
    [Stop], [Cleanup] and [CleanupNamespace] calls return: it is the same
    for any results of these calls, and it is [nil] when the namespace is
    created and every [Start] succeeds, whatever the cleanup calls return. *)
Theorem C7_return_ignores_cleanup_results sem env kCmd h stop cleanup cleanupNs :
  outcomeOf (Run sem (withCleanups env stop cleanup cleanupNs) kCmd h)
  = outcomeOf (Run sem env kCmd h)
  /\ (forall ns,
        CreateNamespace env (clientset kCmd) = (Some ns, None) ->
        Forall (fun t => Start env t = None) (allTracers kCmd h) ->
        outcomeOf (Run sem (withCleanups env stop cleanup cleanupNs) kCmd h)
        = Return None).
Proof.
  assert (Hsame : outcomeOf (Run sem (withCleanups env stop cleanup cleanupNs) kCmd h)
                  = outcomeOf (Run sem env kCmd h)).
  { unfold Run. cbn [CreateNamespace withCleanups].
    destruct (CreateNamespace env (clientset kCmd)) as [[ns|] [e|]]; try reflexivity.
    destruct (rangeTargetPods sem kCmd (NsName ns) h) as [[h1 ts] evs1].
    rewrite startTracers_withCleanups.
    destruct (startTracers env h1 _ _) as [[evs2 defers] ret]. reflexivity. }
  split; [exact Hsame|].
  intros ns Hns Hall. rewrite Hsame.
  destruct (Run_shape sem env kCmd h ns Hns)
    as (h' & started & ret & Heq & [(_ & -> & _) | (l1 & t & l2 & e & Hsplit & _ & _ & _ & Ht)]).
  - rewrite Heq. reflexivity.
  - exfalso. rewrite Hsplit in Hall.
    apply Forall_app in Hall as [_ Hall]. inversion Hall as [|? ? Hnone _]; subst.
    rewrite Ht in Hnone. discriminate.
Qed.

Lemma C7_return_ignores_cleanup_results_witness :
  CreateNamespace (Example.cluster []) (clientset Example.three)
  = (Some Example.runNamespace, None)
  /\ Forall (fun t => Start (Example.cluster []) t = None)
       (allTracers Example.three emptyHeap)
  /\ outcomeOf (Run PerLoop Example.leaking Example.three emptyHeap) = Return None.
Proof.
  assert (Hall : Forall (fun t => Start (Example.cluster []) t = None)
                   (allTracers Example.three emptyHeap))
    by (repeat constructor).
  split; [reflexivity|]. split; [exact Hall|].
  apply (proj2 (C7_return_ignores_cleanup_results PerLoop (Example.cluster [])
                  Example.three emptyHeap
                  (fun _ => Some Example.gone) (fun _ => Some Example.gone)
                  (fun _ => Some Example.gone))
           Example.runNamespace);
    [reflexivity | exact Hall].
Defined.

(** ** Namespace creation failure *)

(** C9. The [defer] of [CleanupNamespace] comes before the test of the
    error of [CreateNamespace].  When [CreateNamespace] returns an error
    with a namespace value, [Run] constructs no tracer, calls
    [CleanupNamespace] with the name read from that value and returns the
    error; when it returns an error with a nil namespace, reading the name
    panics, and [Run] neither returns the error nor calls
    [CleanupNamespace]. *)
Theorem C9_cleanup_deferred_before_error_check sem env kCmd h ns e :
  CreateNamespace env (clientset kCmd) = (ns, Some e) ->
  Run sem env kCmd h
  = match ns with
    | Some n =>
        (Return (Some e), kCmd, h,
         [CallCreateNamespace;
          CallCleanupNamespace (NsName n) (CleanupNamespace env (NsName n))])
    | None => (Panic, kCmd, h, [CallCreateNamespace])
    end.
Proof.
  intros Hns. unfold Run. rewrite Hns. destruct ns; reflexivity.
Qed.

Lemma C9_cleanup_deferred_before_error_check_witness :
  (CreateNamespace
     (Example.withCreateNamespace (Example.cluster [])
        (Some Example.runNamespace, Some Example.forbidden))
     (clientset Example.three)
   = (Some Example.runNamespace, Some Example.forbidden)
   /\ Run PerLoop
        (Example.withCreateNamespace (Example.cluster [])
           (Some Example.runNamespace, Some Example.forbidden))
        Example.three emptyHeap
      = (Return (Some Example.forbidden), Example.three, emptyHeap,
         [CallCreateNamespace; CallCleanupNamespace "kstrace-x7k2p" None]))
  /\ (CreateNamespace
        (Example.withCreateNamespace (Example.cluster []) (None, Some Example.forbidden))
        (clientset Example.three)
      = (None, Some Example.forbidden)
      /\ Run PerLoop
           (Example.withCreateNamespace (Example.cluster []) (None, Some Example.forbidden))
           Example.three emptyHeap
         = (Panic, Example.three, emptyHeap, [CallCreateNamespace])).
Proof.
  split; (split; [reflexivity|]).
  - apply (C9_cleanup_deferred_before_error_check PerLoop
             (Example.withCreateNamespace (Example.cluster [])
                (Some Example.runNamespace, Some Example.forbidden))
             Example.three emptyHeap (Some Example.runNamespace) Example.forbidden).
    reflexivity.
  - apply (C9_cleanup_deferred_before_error_check PerLoop
             (Example.withCreateNamespace (Example.cluster []) (None, Some Example.forbidden))
             Example.three emptyHeap None Example.forbidden).
    reflexivity.
Defined.

(** ** Resolution of the targets *)

Lemma visitItems_pods (items : list (Info * option error)) : forall acc,
  Forall (fun it => resolvedPod it = true) items ->
  visitItems visitPod items acc = ((acc ++ flat_map podOfItem items)%list, None).
Proof.
  induction items as [|[info err] items IH]; intros acc Hall; simpl.
  - now rewrite app_nil_r.
  - inversion Hall as [|? ? Hit Hrest]; subst.
    unfold resolvedPod, isPodObject in Hit. unfold visitPod, podOfItem. simpl.
    destruct err; [discriminate|].
    destruct (InfoObject info); [|discriminate].
    rewrite (IH _ Hrest), <- app_assoc. reflexivity.
Qed.

Lemma visitItems_unsupported pre info post : forall acc,
  Forall (fun it => resolvedPod it = true) pre ->
  isPodObject info = false ->
  visitItems visitPod (pre ++ (info, None) :: post) acc
  = ((acc ++ flat_map podOfItem pre)%list, Some (unsupported info)).
Proof.
  induction pre as [|[i err] pre IH]; intros acc Hall Hinfo; simpl.
  - unfold visitPod. unfold isPodObject in Hinfo.
    destruct (InfoObject info); [discriminate|]. now rewrite app_nil_r.
  - inversion Hall as [|? ? Hit Hrest]; subst.
    unfold resolvedPod, isPodObject in Hit. unfold visitPod at 1. unfold podOfItem at 1. simpl.
    destruct err; [discriminate|].
    destruct (InfoObject i); [|discriminate].
    rewrite (IH _ Hrest Hinfo), <- app_assoc. reflexivity.
Qed.

Lemma visitItems_not_a_pod (items : list (Info * option error)) : forall acc,
  Exists (fun it => isPodObject it.1 = false) items ->
  exists acc' e, visitItems visitPod items acc = (acc', Some e).
Proof.
  induction items as [|[info err] items IH]; intros acc Hex; simpl.
  - inversion Hex.
  - unfold visitPod at 1. destruct err as [e|].
    + eauto.
    + destruct (InfoObject info) eqn:Hobj.
      * inversion Hex as [? ? Hhere | ? ? Hlater]; subst.
        -- unfold isPodObject in Hhere. simpl in Hhere. rewrite Hobj in Hhere. discriminate.
        -- apply IH. exact Hlater.
      * eauto.
Qed.

Lemma Validate_resolution_error env kCmd b e :
  builder kCmd = Some b ->
  processResources env b = ([], Some e) ->
  Validate env kCmd = (Return (Some e), set_targetPods kCmd []).
Proof.
  intros Hb Hres. unfold Validate. rewrite Hb, Hres. reflexivity.
Qed.

(** C8. When an object the builder resolved is not a Pod,
    [processResources] returns no pods and an error, and [Validate]
    returns that same error.  When the objects before it were resolved to
    Pods, the error is the one built for that object and carries its
    group, version and kind. *)
Theorem C8_unsupported_kind_is_reported env kCmd b :
  builder kCmd = Some b ->
  (Exists (fun it => isPodObject it.1 = false) (ResultItems (Do env b)) ->
   exists e,
     processResources env b = ([], Some e)
     /\ (Validate env kCmd).1 = Return (Some e))
  /\ (forall pre info post,
        ResultErr (Do env b) = None ->
        ResultItems (Do env b) = (pre ++ (info, None) :: post)%list ->
        Forall (fun it => resolvedPod it = true) pre ->
        isPodObject info = false ->
        processResources env b
        = ([], Some (Errorf "%q not supported by kstrace" [ArgGVK (MappingGVK info)]))
        /\ (Validate env kCmd).1
           = Return (Some (Errorf "%q not supported by kstrace"
                             [ArgGVK (MappingGVK info)]))).
Proof.
  intros Hb. split.
  - intros Hex.
    assert (Hres : exists e, processResources env b = ([], Some e)).
    { unfold processResources, Visit.
      destruct (ResultErr (Do env b)) as [e|]; [eauto|].
      destruct (visitItems_not_a_pod _ [] Hex) as (acc' & e & ->). eauto. }
    destruct Hres as (e & Hres). exists e. split; [exact Hres|].
    rewrite (Validate_resolution_error _ _ _ _ Hb Hres). reflexivity.
  - intros pre info post Herr Hitems Hpre Hinfo.
    assert (Hres : processResources env b = ([], Some (unsupported info))).
    { unfold processResources, Visit. rewrite Herr, Hitems.
      rewrite (visitItems_unsupported _ _ _ _ Hpre Hinfo). reflexivity. }
    split; [exact Hres|].
    rewrite (Validate_resolution_error _ _ _ _ Hb Hres). reflexivity.
Qed.

Lemma C8_unsupported_kind_is_reported_witness :
  builder (Example.completed ["web-1"; "deployment/api"] "0" "strace-collection")
  = Some (mkBuilder "pod" ["web-1"; "deployment/api"] "default")
  /\ isPodObject Example.deploymentItem.1 = false
  /\ processResources
       (Example.cluster [Example.podItem Example.web; Example.deploymentItem])
       (mkBuilder "pod" ["web-1"; "deployment/api"] "default")
     = ([], Some (Errorf "%q not supported by kstrace" [ArgGVK Example.deploymentGVK]))
  /\ (Validate
        (Example.cluster [Example.podItem Example.web; Example.deploymentItem])
        (Example.completed ["web-1"; "deployment/api"] "0" "strace-collection")).1
     = Return (Some (Errorf "%q not supported by kstrace" [ArgGVK Example.deploymentGVK])).
Proof.
  split; [reflexivity|]. split; [reflexivity|].
  apply (proj2 (C8_unsupported_kind_is_reported
                  (Example.cluster [Example.podItem Example.web; Example.deploymentItem])
                  (Example.completed ["web-1"; "deployment/api"] "0" "strace-collection")
                  (mkBuilder "pod" ["web-1"; "deployment/api"] "default")
                  eq_refl)
           [Example.podItem Example.web] Example.deploymentItem.1 []).
  - reflexivity.
  - reflexivity.
  - repeat constructor.
  - reflexivity.
Defined.

(** ** Validation *)

Lemma Validate_resolved env kCmd b pod0 rest :
  builder kCmd = Some b ->
  processResources env b = (pod0 :: rest, None) ->
  (Validate env kCmd).1
  = if (1 <? length (pod0 :: rest))%nat && String.eqb (outputDirectory kCmd) "-"
    then Return (Some (Errorf
           "cannot have multiple target pods but output to standard out" []))
    else if (1 <? length (Containers (Spec pod0)))%nat
            && String.eqb (outputDirectory kCmd) "-"
    then Return (Some (Errorf
           "there are multiple containers defined for pod %q. unable to output to standard out for pods with multiple containers"
           [ArgString (Name pod0)]))
    else timeoutOutcome kCmd.
Proof.
  intros Hb Hres. unfold Validate, timeoutOutcome. rewrite Hb, Hres.
  cbn [targetPods set_targetPods outputDirectory traceTimeoutStr].
  destruct (_ && _); [reflexivity|].
  destruct (_ && _); [reflexivity|].
  destruct (Time.ParseDuration _); reflexivity.
Qed.

Lemma RunE_validation_error sem env kCmd0 args kCmd kCmd' e h :
  Complete env kCmd0 args = (None, kCmd) ->
  Validate env kCmd = (Return (Some e), kCmd') ->
  RunE sem env kCmd0 args h = (Return (Some e), kCmd', h, []).
Proof.
  intros Hc Hv. unfold RunE. rewrite Hc, Hv. reflexivity.
Qed.

(** C5. With the console as output ("-"), [Validate] returns an error when
    more than one target pod was resolved, and when the single resolved
    pod has more than one container; the command then returns this error
    without calling [Run]: no call into kstrace is made, so no helper pod
    is created. *)
Theorem C5_console_needs_single_pod_single_container
    sem env kCmd0 args kCmd b pods :
  Complete env kCmd0 args = (None, kCmd) ->
  builder kCmd = Some b ->
  processResources env b = (pods, None) ->
  outputDirectory kCmd = "-" ->
  (1 < length pods)%nat
  \/ (exists pod, pods = [pod] /\ (1 < length (Containers (Spec pod)))%nat) ->
  exists e,
    (Validate env kCmd).1 = Return (Some e)
    /\ forall h,
         outcomeOf (RunE sem env kCmd0 args h) = Return (Some e)
         /\ traceOf (RunE sem env kCmd0 args h) = [].
Proof.
  intros Hc Hb Hres Hout Hcard.
  assert (Hv : exists e, (Validate env kCmd).1 = Return (Some e)).
  { destruct pods as [|pod0 rest].
    - destruct Hcard as [Hlen | (pod & Heq & _)]; [simpl in Hlen; lia | discriminate].
    - rewrite (Validate_resolved _ _ _ _ _ Hb Hres), Hout. simpl String.eqb.
      rewrite !andb_true_r.
      destruct Hcard as [Hlen | (pod & Heq & Hlen)].
      + apply Nat.ltb_lt in Hlen. rewrite Hlen. eauto.
      + injection Heq as -> ->. apply Nat.ltb_lt in Hlen. rewrite Hlen.
        simpl. eauto. }
  destruct Hv as (e & Hv). exists e. split; [exact Hv|].
  intros h. destruct (Validate env kCmd) as [r kCmd'] eqn:HV. simpl in Hv. subst r.
  rewrite (RunE_validation_error _ _ _ _ _ _ _ _ Hc HV). split; reflexivity.
Qed.

Lemma C5_console_needs_single_pod_single_container_witness :
  Complete (Example.cluster [Example.podItem Example.mesh]) 
    (Example.withFlags NewKubeStraceDefaults "0" "-") ["mesh-1"]
  = (None, Example.completed ["mesh-1"] "0" "-")
  /\ builder (Example.completed ["mesh-1"] "0" "-")
     = Some (mkBuilder "pod" ["mesh-1"] "default")
  /\ processResources (Example.cluster [Example.podItem Example.mesh])
       (mkBuilder "pod" ["mesh-1"] "default")
     = ([Example.mesh], None)
  /\ outputDirectory (Example.completed ["mesh-1"] "0" "-") = "-"
  /\ exists e,
       (Validate (Example.cluster [Example.podItem Example.mesh])
          (Example.completed ["mesh-1"] "0" "-")).1 = Return (Some e)
       /\ forall h,
            outcomeOf (RunE PerLoop (Example.cluster [Example.podItem Example.mesh])
                         (Example.withFlags NewKubeStraceDefaults "0" "-") ["mesh-1"] h)
            = Return (Some e)
            /\ traceOf (RunE PerLoop (Example.cluster [Example.podItem Example.mesh])
                          (Example.withFlags NewKubeStraceDefaults "0" "-") ["mesh-1"] h)
               = [].
Proof.
  split; [reflexivity|]. split; [reflexivity|]. split; [reflexivity|].
  split; [reflexivity|].
  apply (C5_console_needs_single_pod_single_container PerLoop
           (Example.cluster [Example.podItem Example.mesh])
           (Example.withFlags NewKubeStraceDefaults "0" "-") ["mesh-1"]
           (Example.completed ["mesh-1"] "0" "-")
           (mkBuilder "pod" ["mesh-1"] "default") [Example.mesh]);
    try reflexivity.
  right. exists Example.mesh. split; [reflexivity | simpl; lia].
Defined.

(** C6. When [Validate] returns an error, the command returns that error
    and does not call [Run]: no call into kstrace is made, so neither the
    namespace nor a helper pod exists and nothing is left to clean up. *)
Theorem C6_validation_error_skips_run sem env kCmd0 args kCmd kCmd' e h :
  Complete env kCmd0 args = (None, kCmd) ->
  Validate env kCmd = (Return (Some e), kCmd') ->
  RunE sem env kCmd0 args h = (Return (Some e), kCmd', h, []).
Proof.
  intros Hc Hv. unfold RunE. rewrite Hc, Hv. reflexivity.
Qed.

Lemma C6_validation_error_skips_run_witness :
  Complete (Example.cluster []) NewKubeStraceDefaults []
  = (None, Example.completed [] "0" "strace-collection")
  /\ Validate (Example.cluster []) (Example.completed [] "0" "strace-collection")
     = (Return (Some (Errorf "a target pod must be defined" [])),
        Example.completed [] "0" "strace-collection")
  /\ RunE PerLoop (Example.cluster []) NewKubeStraceDefaults [] emptyHeap
     = (Return (Some (Errorf "a target pod must be defined" [])),
        Example.completed [] "0" "strace-collection", emptyHeap, []).
Proof.
  split; [reflexivity|]. split; [reflexivity|].
  apply (C6_validation_error_skips_run PerLoop (Example.cluster [])
           NewKubeStraceDefaults [] (Example.completed [] "0" "strace-collection")
           (Example.completed [] "0" "strace-collection")
           (Errorf "a target pod must be defined" []) emptyHeap);
    reflexivity.
Defined.

(** C10. The two console checks of [Validate] depend on the output value
    only through its equality with "-".  For any other value the number
    of pods and of containers is not looked at; for "-" a second pod or a
    second container is an error, and a single pod with at most one
    container passes on to the parsing of the timeout. *)
Theorem C10_console_exactly_dash env kCmd b pod0 rest :
  builder kCmd = Some b ->
  processResources env b = (pod0 :: rest, None) ->
  (outputDirectory kCmd <> "-" -> (Validate env kCmd).1 = timeoutOutcome kCmd)
  /\ (outputDirectory kCmd = "-" ->
      (rest = [] /\ (length (Containers (Spec pod0)) <= 1)%nat ->
       (Validate env kCmd).1 = timeoutOutcome kCmd)
      /\ (rest <> [] \/ (1 < length (Containers (Spec pod0)))%nat ->
          exists format args', (Validate env kCmd).1 = Return (Some (Errorf format args')))).
Proof.
  intros Hb Hres. rewrite (Validate_resolved _ _ _ _ _ Hb Hres). split.
  - intros Hne. apply String.eqb_neq in Hne. rewrite Hne, !andb_false_r. reflexivity.
  - intros Heq. apply String.eqb_eq in Heq. rewrite Heq, !andb_true_r. split.
    + intros [-> Hlen]. simpl length.
      replace (1 <? 1)%nat with false by reflexivity.
      apply Nat.ltb_ge in Hlen. rewrite Hlen. reflexivity.
    + intros [Hrest | Hlen].
      * destruct rest as [|pod1 rest]; [contradiction|]. simpl.
        do 2 eexists; reflexivity.
      * apply Nat.ltb_lt in Hlen. rewrite Hlen.
        destruct (1 <? length (pod0 :: rest))%nat; do 2 eexists; reflexivity.
Qed.

Lemma C10_console_exactly_dash_witness :
  builder (Example.completed ["web-1"; "mesh-1"] "0" "--")
  = Some (mkBuilder "pod" ["web-1"; "mesh-1"] "default")
  /\ processResources
       (Example.cluster [Example.podItem Example.mesh; Example.podItem Example.web])
       (mkBuilder "pod" ["web-1"; "mesh-1"] "default")
     = ([Example.mesh; Example.web], None)
  /\ outputDirectory (Example.completed ["web-1"; "mesh-1"] "0" "--") <> "-"
  /\ (Validate
        (Example.cluster [Example.podItem Example.mesh; Example.podItem Example.web])
        (Example.completed ["web-1"; "mesh-1"] "0" "--")).1
     = Return None.
Proof.
  split; [reflexivity|]. split; [reflexivity|].
  assert (Hne : outputDirectory (Example.completed ["web-1"; "mesh-1"] "0" "--") <> "-")
    by discriminate.
  split; [exact Hne|].
  apply (proj1 (C10_console_exactly_dash
                  (Example.cluster [Example.podItem Example.mesh; Example.podItem Example.web])
                  (Example.completed ["web-1"; "mesh-1"] "0" "--")
                  (mkBuilder "pod" ["web-1"; "mesh-1"] "default")
                  Example.mesh [Example.web] eq_refl eq_refl)
           Hne).
Defined.

(** ** The trace timeout *)

Lemma Validate_success env kCmd kCmd' :
  Validate env kCmd = (Return None, kCmd') ->
  exists b pod0 rest d,
    builder kCmd = Some b
    /\ processResources env b = (pod0 :: rest, None)
    /\ Time.ParseDuration (traceTimeoutStr kCmd) = inr d
    /\ kCmd' = set_traceTimeout (set_targetPods kCmd (pod0 :: rest)) d.
Proof.
  unfold Validate. intros Hv.
  destruct (builder kCmd) as [b|]; [|discriminate].
  destruct (processResources env b) as [pods [e|]] eqn:Hres; [discriminate|].
  cbn [targetPods set_targetPods outputDirectory traceTimeoutStr] in Hv.
  destruct pods as [|pod0 rest]; [discriminate|].
  destruct (_ && _); [discriminate|].
  destruct (_ && _); [discriminate|].
  destruct (Time.ParseDuration (traceTimeoutStr kCmd)) as [e|d] eqn:Hd; [discriminate|].
  injection Hv as <-. exists b, pod0, rest, d.
  split; [reflexivity|]. split; [exact Hres|]. split; reflexivity.
Qed.

(** C2, as the code has it.  [Validate] succeeds only when
    [time.ParseDuration] accepts the trace-timeout string, and the
    duration it then holds is the parsed one; the sign is not looked at:
    once the targets pass the checks, every string that parses, to a
    negative duration as well, makes [Validate] succeed with that
    duration. *)
Theorem C2_timeout_must_parse_sign_unchecked env kCmd :
  (forall kCmd',
     Validate env kCmd = (Return None, kCmd') ->
     exists d,
       Time.ParseDuration (traceTimeoutStr kCmd) = inr d /\ traceTimeout kCmd' = d)
  /\ (forall b pod0 rest d,
        builder kCmd = Some b ->
        processResources env b = (pod0 :: rest, None) ->
        outputDirectory kCmd <> "-" ->
        Time.ParseDuration (traceTimeoutStr kCmd) = inr d ->
        exists kCmd',
          Validate env kCmd = (Return None, kCmd') /\ traceTimeout kCmd' = d).
Proof.
  split.
  - intros kCmd' Hv.
    destruct (Validate_success _ _ _ Hv) as (b & pod0 & rest & d & _ & _ & Hd & ->).
    exists d. split; [exact Hd | reflexivity].
  - intros b pod0 rest d Hb Hres Hout Hd.
    exists (set_traceTimeout (set_targetPods kCmd (pod0 :: rest)) d).
    split; [|reflexivity].
    unfold Validate. rewrite Hb, Hres.
    cbn [targetPods set_targetPods outputDirectory traceTimeoutStr].
    apply String.eqb_neq in Hout. rewrite Hout, !andb_false_r, Hd. reflexivity.
Qed.

Lemma C2_timeout_must_parse_sign_unchecked_witness :
  builder (Example.completed ["web-1"] "-1h30m" "strace-collection")
  = Some (mkBuilder "pod" ["web-1"] "default")
  /\ processResources (Example.cluster [Example.podItem Example.web])
       (mkBuilder "pod" ["web-1"] "default")
     = ([Example.web], None)
  /\ outputDirectory (Example.completed ["web-1"] "-1h30m" "strace-collection") <> "-"
  /\ Time.ParseDuration
       (traceTimeoutStr (Example.completed ["web-1"] "-1h30m" "strace-collection"))
     = inr (- 5400000000000)
  /\ exists kCmd',
       Validate (Example.cluster [Example.podItem Example.web])
         (Example.completed ["web-1"] "-1h30m" "strace-collection")
       = (Return None, kCmd')
       /\ traceTimeout kCmd' = - 5400000000000.
Proof.
  assert (Hout : outputDirectory (Example.completed ["web-1"] "-1h30m" "strace-collection")
                 <> "-") by discriminate.
  split; [reflexivity|]. split; [reflexivity|]. split; [exact Hout|].
  split; [vm_compute; reflexivity|].
  apply (proj2 (C2_timeout_must_parse_sign_unchecked
                  (Example.cluster [Example.podItem Example.web])
                  (Example.completed ["web-1"] "-1h30m" "strace-collection"))
           (mkBuilder "pod" ["web-1"] "default") Example.web [] (- 5400000000000)
           eq_refl eq_refl Hout).
  vm_compute. reflexivity.
Defined.

(** C2 as stated fails: "-5s" denotes a negative duration, [Validate]
    returns no error for it, and the tracer built by [Run] is given a
    trace duration of minus five seconds. *)
Lemma C2_negative_timeout_accepted :
  Time.ParseDuration "-5s" = inr (- (5 * Time.Second))
  /\ (Validate (Example.cluster [Example.podItem Example.web])
        (Example.completed ["web-1"] "-5s" "strace-collection")).1
     = Return None
  /\ traceTimeout
       (Validate (Example.cluster [Example.podItem Example.web])
          (Example.completed ["web-1"] "-5s" "strace-collection")).2
     = - 5000000000
  /\ outcomeOf
       (RunE PerLoop (Example.cluster [Example.podItem Example.web])
          (Example.withFlags NewKubeStraceDefaults "-5s" "strace-collection")
          ["web-1"] emptyHeap)
     = Return None
  /\ map k_traceTimeout
       (tracerObjs
          (heapOf
             (RunE PerLoop (Example.cluster [Example.podItem Example.web])
                (Example.withFlags NewKubeStraceDefaults "-5s" "strace-collection")
                ["web-1"] emptyHeap)))
     = [- 5000000000].
Proof.
  repeat split; vm_compute; reflexivity.
Qed.

(** ** time.ParseDuration: the loop ends, and the sign is carried through *)

Module TimeFacts.
Import Time.

(** Entries of the table of the standard library's own test of
    [ParseDuration]. *)
Example parse_signed_seconds :
  ParseDuration "-5s" = inr (- (5 * Second)) /\ ParseDuration "+5s" = inr (5 * Second).
Proof. split; vm_compute; reflexivity. Qed.

Example parse_composite :
  ParseDuration "-2m3.4s" = inr (- (2 * Minute + 3 * Second + 400 * Millisecond))
  /\ ParseDuration "1h2m3s4ms5us6ns"
     = inr (Hour + 2 * Minute + 3 * Second + 4 * Millisecond + 5 * Microsecond + 6).
Proof. split; vm_compute; reflexivity. Qed.

Example parse_fraction_in_float64 :
  ParseDuration "0.3333333333333333333h" = inr (20 * Minute)
  /\ ParseDuration "0.830103483285477580700h"
     = inr (49 * Minute + 48 * Second + 372539827 * Nanosecond).
Proof. split; vm_compute; reflexivity. Qed.

Example parse_extremes :
  ParseDuration "9223372036854775807ns" = inr (2 ^ 63 - 1)
  /\ ParseDuration "-9223372036854775808ns" = inr (- 2 ^ 63)
  /\ ParseDuration "9223372036854775808ns" = inl (InvalidDuration "9223372036854775808ns").
Proof. repeat split; vm_compute; reflexivity. Qed.

Example parse_rejected :
  ParseDuration "" = inl (InvalidDuration "")
  /\ ParseDuration "3" = inl (MissingUnit "3")
  /\ ParseDuration "1d" = inl (UnknownUnit "d" "1d")
  /\ ParseDuration ".s" = inl (InvalidDuration ".s").
Proof. repeat split; vm_compute; reflexivity. Qed.

Lemma leadingInt_loop_length (s : string) : forall x v r,
  leadingInt_loop s x = Some (v, r) -> (String.length r <= String.length s)%nat.
Proof.
  induction s as [|c s IH]; intros x v r H; simpl in H.
  - injection H as _ <-. simpl. lia.
  - destruct (negb (isDigit c)).
    + injection H as _ <-. simpl. lia.
    + destruct (x >? _); [discriminate|].
      destruct (_ >? _); [discriminate|].
      apply IH in H. simpl. lia.
Qed.

Lemma leadingFraction_loop_length (s : string) : forall x scale overflow,
  (String.length (leadingFraction_loop s x scale overflow).2 <= String.length s)%nat.
Proof.
  induction s as [|c s IH]; intros x scale overflow; simpl.
  - lia.
  - destruct (negb (isDigit c)); [simpl; lia|].
    destruct overflow; [etrans; [apply IH | lia]|].
    destruct (x >? _); [etrans; [apply IH | lia]|].
    destruct (_ >? _); (etrans; [apply IH | lia]).
Qed.

Lemma splitUnit_length (s : string) :
  (String.length (splitUnit s).1 + String.length (splitUnit s).2 = String.length s)%nat.
Proof.
  induction s as [|c s IH]; simpl.
  - reflexivity.
  - destruct (isDot c || isDigit c); simpl; [reflexivity|].
    destruct (splitUnit s) as [u rest]. simpl in *. lia.
Qed.

(** Every pass of the loop consumes at least the unit. *)
Lemma parseGroup_consumes orig s d d' s' :
  parseGroup orig s d = inr (d', s') ->
  (String.length s' < String.length s)%nat.
Proof.
  unfold parseGroup. intros H.
  destruct s as [|c0 s0]; [discriminate|].
  destruct (negb _); [discriminate|].
  destruct (leadingInt (String c0 s0)) as [[v s1]|] eqn:Hint; [|discriminate].
  apply leadingInt_loop_length in Hint.
  destruct (match s1 with EmptyString => _ | String _ _ => _ end)
    as [[[f scale] s2] post] eqn:Hf.
  assert (Hfrac : (String.length s2 <= String.length s1)%nat).
  { destruct s1 as [|c1 s1'].
    - injection Hf as _ _ <- _. lia.
    - destruct (isDot c1).
      + pose proof (leadingFraction_loop_length s1' 0 (F64.of_u64 1) false) as Hl.
        unfold leadingFraction in Hf.
        destruct (leadingFraction_loop s1' 0 (F64.of_u64 1) false) as [[f' sc'] r'].
        injection Hf as _ _ <- _. simpl in *. lia.
      + injection Hf as _ _ <- _. lia. }
  clear Hf.
  destruct (negb _ && negb _); [discriminate|].
  pose proof (splitUnit_length s2) as Hu.
  destruct (splitUnit s2) as [u s3]. simpl in Hu.
  destruct (Nat.eqb (String.length u) 0) eqn:Hnil; [discriminate|].
  apply Nat.eqb_neq in Hnil.
  destruct (unitMap u); [|discriminate].
  destruct (v >? _); [discriminate|].
  destruct (_ && _); [discriminate|].
  destruct (_ >? _); [discriminate|].
  injection H as _ <-. lia.
Qed.

(** A fuel of the length of the string is enough: the loop returns. *)
Lemma parseGroups_fuel orig (fuel : nat) : forall s d,
  (String.length s <= fuel)%nat ->
  exists r, parseGroups fuel orig s d = Some r.
Proof.
  induction fuel as [|fuel IH]; intros s d Hlen.
  - destruct s; [simpl; eauto | simpl in Hlen; lia].
  - destruct s as [|c s]; [simpl; eauto|].
    cbn [parseGroups].
    destruct (parseGroup orig (String c s) d) as [e|[d' s']] eqn:Hg; [eauto|].
    apply parseGroup_consumes in Hg. apply IH. lia.
Qed.

(** [ParseDuration] never takes its out-of-fuel branch. *)
Lemma ParseDuration_loop_returns (orig : string) :
  exists r, parseGroups (String.length (signOf orig).2) orig (signOf orig).2 0 = Some r.
Proof. apply parseGroups_fuel. lia. Qed.

(** A pass that succeeds does not depend on the text kept for error
    messages, and leaves the sum within the magnitude of an [int64]. *)
Lemma parseGroup_orig o1 o2 s d d' s' :
  parseGroup o1 s d = inr (d', s') ->
  parseGroup o2 s d = inr (d', s') /\ 0 <= d' <= 2 ^ 63.
Proof.
  unfold parseGroup. intros H.
  destruct s as [|c0 s0]; [discriminate|].
  destruct (negb _); [discriminate|].
  destruct (leadingInt (String c0 s0)) as [[v s1]|]; [|discriminate].
  destruct (match s1 with EmptyString => _ | String _ _ => _ end)
    as [[[f scale] s2] post].
  destruct (negb _ && negb _); [discriminate|].
  destruct (splitUnit s2) as [u s3].
  destruct (Nat.eqb (String.length u) 0); [discriminate|].
  destruct (unitMap u) as [unit|]; [|discriminate].
  destruct (v >? _); [discriminate|].
  destruct (_ && _); [discriminate|].
  destruct (_ >? _) eqn:Hd; [discriminate|].
  injection H as <- <-. split; [reflexivity|].
  rewrite Z.gtb_ltb in Hd. apply Z.ltb_ge in Hd.
  split; [|exact Hd].
  unfold Int.u64. apply Z.mod_pos_bound. lia.
Qed.

Lemma parseGroups_orig o1 o2 (fuel : nat) : forall s d x,
  0 <= d <= 2 ^ 63 ->
  parseGroups fuel o1 s d = Some (inr x) ->
  parseGroups fuel o2 s d = Some (inr x) /\ 0 <= x <= 2 ^ 63.
Proof.
  induction fuel as [|fuel IH]; intros s d x Hd H.
  - destruct s; [|discriminate]. simpl in *. injection H as <-. auto.
  - destruct s as [|c s]; [simpl in *; injection H as <-; auto|].
    cbn [parseGroups] in *.
    destruct (parseGroup o1 (String c s) d) as [e|[d' s']] eqn:Hg; [discriminate|].
    apply (parseGroup_orig o1 o2) in Hg as [-> Hd'].
    apply IH; assumption.
Qed.

(** The sign is only carried through: when a string without a sign of
    its own is accepted, the same string after a minus sign is accepted
    too, with the opposite duration. *)
Lemma ParseDuration_minus (s : string) (d : Z) :
  signOf s = (false, s) ->
  ParseDuration s = inr d ->
  ParseDuration (String "-" s) = inr (- d).
Proof.
  intros Hsign. unfold ParseDuration. rewrite Hsign.
  replace (signOf (String "-" s)) with (true, s) by reflexivity.
  destruct (String.eqb s "0"); [intros [= <-]; reflexivity|].
  destruct (String.eqb s ""); [discriminate|].
  destruct (parseGroups (String.length s) s s 0) as [[e|x]|] eqn:Hg; try discriminate.
  apply (parseGroups_orig s (String "-" s)) in Hg as [-> Hx]; [|lia].
  destruct (x >? 2 ^ 63 - 1) eqn:Hmax; [discriminate|].
  rewrite Z.gtb_ltb in Hmax. apply Z.ltb_ge in Hmax.
  intros [= <-].
  rewrite !i64_small; [reflexivity | lia | rewrite i64_small; lia].
Qed.

End TimeFacts.

(** X17. The sign of the trace timeout is carried through: when the
    targets pass, the output is not the console and a timeout without a
    sign of its own parses to [d], the same timeout after a minus sign
    makes [Validate] succeed with the duration [- d]. *)
Lemma Validate_accepts_minus env kCmd b pod0 rest s d :
  builder kCmd = Some b ->
  processResources env b = (pod0 :: rest, None) ->
  outputDirectory kCmd <> "-" ->
  traceTimeoutStr kCmd = String "-" s ->
  Time.signOf s = (false, s) ->
  Time.ParseDuration s = inr d ->
  Validate env kCmd
  = (Return None, set_traceTimeout (set_targetPods kCmd (pod0 :: rest)) (- d)).
Proof.
  intros Hb Hres Hout Hstr Hsign Hd.
  unfold Validate. rewrite Hb, Hres.
  cbn [targetPods set_targetPods outputDirectory traceTimeoutStr].
  apply String.eqb_neq in Hout. rewrite Hout, !andb_false_r, Hstr.
  rewrite (TimeFacts.ParseDuration_minus _ _ Hsign Hd). reflexivity.
Qed.

(** ** The target of each tracer *)

Section TargetReferences.
Variable kCmd : KubeStraceCommand.
Variable nsName : string.

(** One variable per iteration: the pods are copied to fresh cells, and
    the tracers point to them in order. *)
Lemma constructTracers_PerIteration_heap (pods : list Pod) : forall h ts,
  (constructTracers allocPod kCmd nsName pods h ts).1.1
  = mkHeap (podCells h ++ pods)
      (tracerObjs h
       ++ map (tracerFor kCmd nsName) (seq (length (podCells h)) (length pods))).
Proof.
  induction pods as [|pod rest IH]; intros h ts; simpl.
  - rewrite !app_nil_r. destruct h; reflexivity.
  - specialize (IH (mkHeap (podCells h ++ [pod])
                      (tracerObjs h ++ [tracerFor kCmd nsName (length (podCells h))]))
                   (ts ++ [length (tracerObjs h)])%list).
    unfold tracerFor at 1 in IH.
    destruct (constructTracers _ _ _ rest _ _) as [[h' ts'] evs].
    simpl in *. rewrite IH. rewrite length_app. simpl.
    rewrite <- !app_assoc. simpl.
    replace (length (podCells h) + 1)%nat with (S (length (podCells h))) by lia.
    reflexivity.
Qed.

(** One variable for the loop: every pod is written to the same cell,
    and every tracer points to that cell. *)
Lemma constructTracers_PerLoop_heap (cell : loc) (pods : list Pod) : forall h ts,
  (constructTracers (fun h pod => (cell, storePod h cell pod)) kCmd nsName pods h ts).1.1
  = mkHeap (foldl (fun cells pod => <[cell := pod]> cells) (podCells h) pods)
      (tracerObjs h ++ replicate (length pods) (tracerFor kCmd nsName cell)).
Proof.
  induction pods as [|pod rest IH]; intros h ts; simpl.
  - rewrite !app_nil_r. destruct h; reflexivity.
  - specialize (IH (mkHeap (<[cell := pod]> (podCells h))
                      (tracerObjs h ++ [tracerFor kCmd nsName cell]))
                   (ts ++ [length (tracerObjs h)])%list).
    unfold tracerFor at 1 in IH.
    destruct (constructTracers _ _ _ rest _ _) as [[h' ts'] evs].
    simpl in *. rewrite IH. rewrite <- !app_assoc. reflexivity.
Qed.
End TargetReferences.

Lemma foldl_store_last (cell : loc) (pods : list Pod) : forall (cells : list Pod) pod,
  (cell < length cells)%nat ->
  last pods = Some pod ->
  foldl (fun cells pod => <[cell := pod]> cells) cells pods !! cell = Some pod.
Proof.
  induction pods as [|p pods IH]; intros cells pod Hlt Hlast; [discriminate|].
  simpl. destruct pods as [|p' pods].
  - simpl in *. injection Hlast as ->. apply list_lookup_insert_eq. exact Hlt.
  - apply IH; [rewrite length_insert; exact Hlt | exact Hlast].
Qed.

(** With one variable per iteration (Go 1.22 and later), the tracer built
    for the i-th target pod refers to that pod. *)
Lemma rangeTargetPods_PerIteration_target kCmd nsName h (i : nat) pod :
  targetPods kCmd !! i = Some pod ->
  targetOf (rangeTargetPods PerIteration kCmd nsName h).1.1 (length (tracerObjs h) + i)%nat
  = Some pod.
Proof.
  intros Hi. unfold rangeTargetPods.
  rewrite constructTracers_PerIteration_heap. unfold targetOf. simpl.
  pose proof (lookup_lt_Some _ _ _ Hi) as Hlt.
  rewrite lookup_app_r by lia.
  replace (length (tracerObjs h) + i - length (tracerObjs h))%nat with i by lia.
  rewrite list_lookup_fmap, lookup_seq_lt by exact Hlt. simpl.
  rewrite lookup_app_r by lia.
  replace (length (podCells h) + i - length (podCells h))%nat with i by lia.
  exact Hi.
Qed.

(** With one variable for the loop (Go up to 1.21), every tracer built by
    the loop refers to the pod assigned last. *)
Lemma rangeTargetPods_PerLoop_target kCmd nsName h (i : nat) pod :
  (i < length (targetPods kCmd))%nat ->
  last (targetPods kCmd) = Some pod ->
  targetOf (rangeTargetPods PerLoop kCmd nsName h).1.1 (length (tracerObjs h) + i)%nat
  = Some pod.
Proof.
  intros Hi Hlast. unfold rangeTargetPods. simpl.
  rewrite constructTracers_PerLoop_heap. unfold targetOf. simpl.
  rewrite lookup_app_r by lia.
  replace (length (tracerObjs h) + i - length (tracerObjs h))%nat with i by lia.
  rewrite lookup_replicate_2 by exact Hi. simpl.
  apply foldl_store_last; [rewrite length_app; simpl; lia | exact Hlast].
Qed.

(** C1, where the code departs from it.  Two target pods, web-1 and db-1,
    resolved and validated, in a module built with one loop variable per
    [range] statement: [Run] constructs two tracers, one per target, but
    both hold the address of the loop variable, and when [Start] is
    invoked on the tracer built for web-1 that variable holds db-1. *)
Theorem C1_tracers_share_the_loop_variable :
  outcomeOf
    (RunE PerLoop (Example.cluster [Example.podItem Example.web; Example.podItem Example.db])
       NewKubeStraceDefaults ["web-1"; "db-1"] emptyHeap)
  = Return None
  /\ traceOf
       (RunE PerLoop (Example.cluster [Example.podItem Example.web; Example.podItem Example.db])
          NewKubeStraceDefaults ["web-1"; "db-1"] emptyHeap)
     = [CallCreateNamespace;
        CallNewKStracer 0%nat; CallNewKStracer 1%nat;
        CallStart 0%nat (Some Example.db) None;
        CallStart 1%nat (Some Example.db) None;
        CallStop 1%nat None; CallCleanup 1%nat None;
        CallStop 0%nat None; CallCleanup 0%nat None;
        CallCleanupNamespace "kstrace-x7k2p" None]
  /\ map k_targetPod
       (tracerObjs
          (heapOf
             (RunE PerLoop
                (Example.cluster [Example.podItem Example.web; Example.podItem Example.db])
                NewKubeStraceDefaults ["web-1"; "db-1"] emptyHeap)))
     = [0%nat; 0%nat]
  /\ Example.web <> Example.db.
Proof.
  repeat split; try (vm_compute; reflexivity). discriminate.
Qed.


(** * Further properties of the command *)

(** ** processResources *)

Lemma visitItems_failure (items : list (Info * option error)) : forall acc,
  Exists (fun it => resolvedPod it = false) items ->
  exists acc' e, visitItems visitPod items acc = (acc', Some e).
Proof.
  induction items as [|[info err] items IH]; intros acc Hex; simpl.
  - inversion Hex.
  - unfold visitPod at 1. destruct err as [e|]; [eauto|].
    destruct (InfoObject info) eqn:Hobj; [|eauto].
    inversion Hex as [? ? Hhere | ? ? Hlater]; subst.
    + unfold resolvedPod, isPodObject in Hhere. rewrite Hobj in Hhere. discriminate.
    + apply IH. exact Hlater.
Qed.

Lemma resolvedPod_objects (items : list (Info * option error)) :
  Forall (fun it => resolvedPod it = true) items ->
  map (fun it => InfoObject it.1) items = map PodObject (flat_map podOfItem items)
  /\ Forall (fun it => it.2 = None) items.
Proof.
  induction 1 as [|[info err] items Hit _ [IHo IHe]]; simpl; [split; [reflexivity | constructor]|].
  unfold resolvedPod, isPodObject in Hit. unfold podOfItem at 1. simpl.
  destruct err; [discriminate|]. destruct (InfoObject info); [|discriminate].
  simpl. rewrite IHo. split; [reflexivity | constructor; [reflexivity | exact IHe]].
Qed.

Lemma objects_resolvedPod (items : list (Info * option error)) : forall pods,
  map (fun it => InfoObject it.1) items = map PodObject pods ->
  Forall (fun it => it.2 = None) items ->
  Forall (fun it => resolvedPod it = true) items /\ flat_map podOfItem items = pods.
Proof.
  induction items as [|[info err] items IH]; intros pods Hobj Herr.
  - destruct pods; [|discriminate]. split; [constructor | reflexivity].
  - destruct pods as [|p pods]; [discriminate|]. simpl in Hobj.
    injection Hobj as Hhead Htail.
    inversion Herr as [|? ? Hnone Hrest]; subst. simpl in Hnone. subst err.
    destruct (IH pods Htail Hrest) as [Hall Hflat].
    split.
    + constructor; [|exact Hall]. unfold resolvedPod, isPodObject. now rewrite Hhead.
    + simpl. unfold podOfItem at 1. simpl. rewrite Hhead, Hflat. reflexivity.
Qed.

Lemma resolved_or_not (items : list (Info * option error)) :
  Forall (fun it => resolvedPod it = true) items
  \/ Exists (fun it => resolvedPod it = false) items.
Proof.
  induction items as [|it items [IH | IH]].
  - left. constructor.
  - destruct (resolvedPod it) eqn:Hit.
    + left. constructor; assumption.
    + right. constructor. exact Hit.
  - right. apply Exists_cons_tl. exact IH.
Qed.

(** X1. [processResources] returns without error exactly when the result
    of the builder holds no error and every visited item is a Pod that
    came without error; the slice it returns is then these pods, one per
    item, in the order of the visit. *)
Theorem processResources_succeeds_iff env b pods :
  processResources env b = (pods, None)
  <-> ResultErr (Do env b) = None
      /\ Forall (fun it => it.2 = None) (ResultItems (Do env b))
      /\ map (fun it => InfoObject it.1) (ResultItems (Do env b)) = map PodObject pods.
Proof.
  unfold processResources, Visit. split.
  - intros H. destruct (ResultErr (Do env b)); [discriminate|].
    destruct (resolved_or_not (ResultItems (Do env b))) as [Hall | Hex'].
    + rewrite (visitItems_pods _ [] Hall) in H. simpl in H. injection H as <-.
      destruct (resolvedPod_objects _ Hall) as [Hobj Herr]. auto.
    + exfalso.
      destruct (visitItems_failure _ [] Hex') as (acc' & e & Hv).
      rewrite Hv in H. discriminate.
  - intros (Herr & Hnone & Hobj). rewrite Herr.
    destruct (objects_resolvedPod _ _ Hobj Hnone) as [Hall Hflat].
    rewrite (visitItems_pods _ [] Hall). simpl. rewrite Hflat. reflexivity.
Qed.

(** X2. An error that comes with an item is returned as it is, whatever
    follows the item, and the pods collected before it are dropped: the
    slice is nil.  The same holds for an error held by the result of the
    builder, with no item visited. *)
Theorem processResources_passes_errors_through env b e :
  (ResultErr (Do env b) = Some e -> processResources env b = ([], Some e))
  /\ (forall pre info post,
        ResultErr (Do env b) = None ->
        ResultItems (Do env b) = (pre ++ (info, Some e) :: post)%list ->
        Forall (fun it => resolvedPod it = true) pre ->
        processResources env b = ([], Some e)).
Proof.
  unfold processResources, Visit. split.
  - intros ->. reflexivity.
  - intros pre info post -> -> Hpre.
    assert (Hv : forall acc,
               visitItems visitPod (pre ++ (info, Some e) :: post) acc
               = ((acc ++ flat_map podOfItem pre)%list, Some e)).
    { clear -Hpre. induction Hpre as [|[i err] pre Hit _ IH]; intros acc; simpl.
      - now rewrite app_nil_r.
      - unfold resolvedPod, isPodObject in Hit. unfold visitPod at 1. unfold podOfItem at 1.
        simpl. destruct err; [discriminate|]. destruct (InfoObject i); [|discriminate].
        rewrite IH, <- app_assoc. reflexivity. }
    rewrite Hv. reflexivity.
Qed.

Lemma processResources_passes_errors_through_witness :
  ResultErr (Do (Example.cluster
                   [Example.podItem Example.web;
                    (mkInfo (OtherObject "") Example.podGVK, Some Example.forbidden);
                    Example.podItem Example.db])
               (mkBuilder "pod" ["web-1"; "secret"; "db-1"] "default")) = None
  /\ processResources
       (Example.cluster
          [Example.podItem Example.web;
           (mkInfo (OtherObject "") Example.podGVK, Some Example.forbidden);
           Example.podItem Example.db])
       (mkBuilder "pod" ["web-1"; "secret"; "db-1"] "default")
     = ([], Some Example.forbidden).
Proof.
  split; [reflexivity|].
  apply (proj2 (processResources_passes_errors_through
                  (Example.cluster
                     [Example.podItem Example.web;
                      (mkInfo (OtherObject "") Example.podGVK, Some Example.forbidden);
                      Example.podItem Example.db])
                  (mkBuilder "pod" ["web-1"; "secret"; "db-1"] "default")
                  Example.forbidden)
           [Example.podItem Example.web] (mkInfo (OtherObject "") Example.podGVK)
           [Example.podItem Example.db]).
  - reflexivity.
  - reflexivity.
  - repeat constructor.
Defined.

(** ** Validate *)

(** X3. [Validate] returns nil exactly when the builder is set, the
    resolution gives at least one pod and no error, the console ("-") is
    asked for at most with a single pod of at most one container, and the
    trace timeout parses; the command then holds the resolved pods and the
    parsed duration, and nothing else has changed. *)
Theorem Validate_returns_nil_iff env kCmd kCmd' :
  Validate env kCmd = (Return None, kCmd')
  <-> exists b pod0 rest d,
        builder kCmd = Some b
        /\ processResources env b = (pod0 :: rest, None)
        /\ (outputDirectory kCmd = "-" ->
            rest = [] /\ (length (Containers (Spec pod0)) <= 1)%nat)
        /\ Time.ParseDuration (traceTimeoutStr kCmd) = inr d
        /\ kCmd' = set_traceTimeout (set_targetPods kCmd (pod0 :: rest)) d.
Proof.
  split.
  - intros Hv.
    destruct (Validate_success _ _ _ Hv) as (b & pod0 & rest & d & Hb & Hres & Hd & ->).
    exists b, pod0, rest, d.
    split; [exact Hb|]. split; [exact Hres|]. split; [|split; [exact Hd | reflexivity]].
    intros Hout.
    pose proof (Validate_resolved _ _ _ _ _ Hb Hres) as Hr.
    rewrite Hv, Hout in Hr. simpl String.eqb in Hr. rewrite !andb_true_r in Hr.
    cbn [fst] in Hr.
    destruct rest as [|pod1 rest]; [|discriminate].
    split; [reflexivity|].
    replace (1 <? length [pod0])%nat with false in Hr by reflexivity.
    destruct (1 <? length (Containers (Spec pod0)))%nat eqn:Hc; [discriminate|].
    apply Nat.ltb_ge in Hc. exact Hc.
  - intros (b & pod0 & rest & d & Hb & Hres & Hcons & Hd & ->).
    unfold Validate. rewrite Hb, Hres.
    cbn [targetPods set_targetPods outputDirectory traceTimeoutStr].
    destruct (String.eqb (outputDirectory kCmd) "-") eqn:Hout.
    + apply String.eqb_eq in Hout. destruct (Hcons Hout) as [-> Hlen].
      apply Nat.ltb_ge in Hlen. rewrite Hlen. simpl. rewrite Hd. reflexivity.
    + rewrite !andb_false_r, Hd. reflexivity.
Qed.

(** X4. Whatever it returns, [Validate] leaves the flags, the log level,
    the handles, the builder and the tracers of the command as they were:
    it writes the target pods and the trace duration only. *)
Theorem Validate_writes_targets_and_duration_only env kCmd :
  sameSettings kCmd (Validate env kCmd).2
  /\ tracers (Validate env kCmd).2 = tracers kCmd.
Proof.
  unfold Validate, sameSettings.
  destruct (builder kCmd) as [b|] eqn:Hb; [|simpl; rewrite Hb; repeat split].
  destruct (processResources env b) as [pods [e|]];
    [simpl; rewrite Hb; repeat split|].
  cbn [targetPods set_targetPods outputDirectory traceTimeoutStr].
  destruct pods as [|pod0 rest]; [simpl; rewrite Hb; repeat split|].
  destruct (_ && _); [simpl; rewrite Hb; repeat split|].
  destruct (_ && _); [simpl; rewrite Hb; repeat split|].
  destruct (Time.ParseDuration _); simpl; rewrite Hb; repeat split.
Qed.

(** ** Complete *)

(** X5. [Complete] returns nil exactly when the log level parses, the
    client configuration loads, the clientset is built from it and the
    namespace of the kubeconfig is read; the command then holds the
    level, the configuration, the clientset and a builder for resource
    type "pod" over the arguments in that namespace. *)
Theorem Complete_returns_nil_iff env kCmd args kCmd' :
  Complete env kCmd args = (None, kCmd')
  <-> exists lvl cfg cs namespace,
        ParseLevel env (logLevelStr kCmd) = (lvl, None)
        /\ ClientConfig env = (cfg, None)
        /\ NewForConfig env cfg = (cs, None)
        /\ KubeConfigNamespace env = (namespace, None)
        /\ kCmd' = set_builder
                     (set_clientset (set_restConfig (set_logLevel kCmd lvl) cfg) cs)
                     (Some (mkBuilder "pod" args namespace)).
Proof.
  unfold Complete, configureClientset. split.
  - intros H.
    destruct (ParseLevel env (logLevelStr kCmd)) as [lvl [e|]]; [discriminate|].
    destruct (ClientConfig env) as [cfg [e|]]; [discriminate|].
    cbn [restConfig set_restConfig] in H.
    destruct (NewForConfig env cfg) as [cs [e|]] eqn:Hcs; [discriminate|].
    destruct (KubeConfigNamespace env) as [namespace [e|]]; [discriminate|].
    injection H as <-. exists lvl, cfg, cs, namespace.
    split; [reflexivity|]. split; [reflexivity|]. split; [exact Hcs|].
    split; reflexivity.
  - intros (lvl & cfg & cs & namespace & -> & -> & Hcs & -> & ->).
    cbn [restConfig set_restConfig]. rewrite Hcs. reflexivity.
Qed.

(** X6. [Complete] never touches the flags, the trace duration, the
    target pods or the tracers, and when it returns an error the builder
    is the one the command had: a command that was fresh stays without a
    builder. *)
Theorem Complete_failure_sets_no_builder env kCmd args :
  traceImage (Complete env kCmd args).2 = traceImage kCmd
  /\ traceTimeoutStr (Complete env kCmd args).2 = traceTimeoutStr kCmd
  /\ socketPath (Complete env kCmd args).2 = socketPath kCmd
  /\ logLevelStr (Complete env kCmd args).2 = logLevelStr kCmd
  /\ outputDirectory (Complete env kCmd args).2 = outputDirectory kCmd
  /\ traceTimeout (Complete env kCmd args).2 = traceTimeout kCmd
  /\ targetPods (Complete env kCmd args).2 = targetPods kCmd
  /\ tracers (Complete env kCmd args).2 = tracers kCmd
  /\ (forall e, (Complete env kCmd args).1 = Some e ->
                builder (Complete env kCmd args).2 = builder kCmd).
Proof.
  unfold Complete, configureClientset.
  destruct (ParseLevel env (logLevelStr kCmd)) as [lvl [e|]];
    [repeat split|].
  destruct (ClientConfig env) as [cfg [e|]]; [repeat split|].
  cbn [restConfig set_restConfig].
  destruct (NewForConfig env cfg) as [cs [e|]]; [repeat split|].
  destruct (KubeConfigNamespace env) as [namespace [e|]]; [repeat split|].
  repeat split. intros e. discriminate.
Qed.

(** ** RunE *)

(** X7. The command calls into kstrace only after [Complete] and
    [Validate] have both returned nil: a non-empty trace means that the
    calls are those of [Run] on the validated command. *)
Theorem RunE_calls_kstrace_only_when_validated sem env kCmd0 args h :
  traceOf (RunE sem env kCmd0 args h) <> [] ->
  exists kCmd1 kCmd2,
    Complete env kCmd0 args = (None, kCmd1)
    /\ Validate env kCmd1 = (Return None, kCmd2)
    /\ RunE sem env kCmd0 args h = Run sem env kCmd2 h.
Proof.
  unfold RunE. intros Htrace.
  destruct (Complete env kCmd0 args) as [[e|] kCmd1];
    [exfalso; apply Htrace; reflexivity|].
  destruct (Validate env kCmd1) as [[[e|]|] kCmd2] eqn:Hv;
    [exfalso; apply Htrace; reflexivity | | exfalso; apply Htrace; reflexivity].
  exists kCmd1, kCmd2. split; [reflexivity|]. split; [exact Hv | reflexivity].
Qed.

Lemma RunE_calls_kstrace_only_when_validated_witness :
  traceOf (RunE PerLoop (Example.cluster [Example.podItem Example.web])
             NewKubeStraceDefaults ["web-1"] emptyHeap) <> []
  /\ exists kCmd1 kCmd2,
       Complete (Example.cluster [Example.podItem Example.web])
         NewKubeStraceDefaults ["web-1"] = (None, kCmd1)
       /\ Validate (Example.cluster [Example.podItem Example.web]) kCmd1
          = (Return None, kCmd2)
       /\ RunE PerLoop (Example.cluster [Example.podItem Example.web])
            NewKubeStraceDefaults ["web-1"] emptyHeap
          = Run PerLoop (Example.cluster [Example.podItem Example.web]) kCmd2 emptyHeap.
Proof.
  assert (Hne : traceOf (RunE PerLoop (Example.cluster [Example.podItem Example.web])
                           NewKubeStraceDefaults ["web-1"] emptyHeap) <> [])
    by (vm_compute; discriminate).
  split; [exact Hne|].
  apply (RunE_calls_kstrace_only_when_validated PerLoop
           (Example.cluster [Example.podItem Example.web])
           NewKubeStraceDefaults ["web-1"] emptyHeap Hne).
Defined.

(** ** Run: the heap *)

Lemma insert_fresh_cell (cells : list Pod) (z p : Pod) :
  <[length cells := p]> (cells ++ [z])%list = (cells ++ [p])%list.
Proof.
  induction cells as [|c cells IH]; simpl; [reflexivity|].
  f_equal. exact IH.
Qed.

Lemma foldl_store_fresh (cells : list Pod) (pods : list Pod) : forall z,
  foldl (fun cs pod => <[length cells := pod]> cs) (cells ++ [z])%list pods
  = (cells ++ [default z (last pods)])%list.
Proof.
  induction pods as [|p pods IH]; intros z; simpl; [reflexivity|].
  rewrite insert_fresh_cell, IH. destruct pods as [|p' pods]; [reflexivity|].
  change (last (p :: p' :: pods)) with (last (p' :: pods)).
  destruct (last (p' :: pods)) eqn:Hlast; [reflexivity|].
  apply last_None in Hlast. discriminate.
Qed.

(** The heap when the construction loop is left, for either scope of the
    loop variable. *)
Lemma rangeTargetPods_heap sem kCmd nsName h :
  (rangeTargetPods sem kCmd nsName h).1.1
  = match sem with
    | PerLoop =>
        mkHeap (podCells h ++ [default zeroPod (last (targetPods kCmd))])
          (tracerObjs h
           ++ replicate (length (targetPods kCmd))
                (tracerFor kCmd nsName (length (podCells h))))
    | PerIteration =>
        mkHeap (podCells h ++ targetPods kCmd)
          (tracerObjs h
           ++ map (tracerFor kCmd nsName)
                (seq (length (podCells h)) (length (targetPods kCmd))))
    end.
Proof.
  unfold rangeTargetPods. destruct sem.
  - simpl. rewrite constructTracers_PerLoop_heap. simpl.
    rewrite foldl_store_fresh. reflexivity.
  - apply constructTracers_PerIteration_heap.
Qed.

Lemma Run_heap sem env kCmd h ns :
  CreateNamespace env (clientset kCmd) = (Some ns, None) ->
  heapOf (Run sem env kCmd h) = (rangeTargetPods sem kCmd (NsName ns) h).1.1.
Proof.
  intros Hns. unfold Run. rewrite Hns.
  destruct (rangeTargetPods sem kCmd (NsName ns) h) as [[h1 ts] evs1].
  destruct (startTracers env h1 _ _) as [[evs2 defers] ret]. reflexivity.
Qed.



(** X9. Every tracer object that [Run] allocates is built from the
    command's handles, trace image, socket path, trace duration and output
    directory, and from the name of the namespace just created. *)
Theorem Run_tracers_carry_the_configuration sem env kCmd h ns t k :
  CreateNamespace env (clientset kCmd) = (Some ns, None) ->
  (length (tracerObjs h) <= t)%nat ->
  tracerObjs (heapOf (Run sem env kCmd h)) !! t = Some k ->
  k_clientset k = clientset kCmd
  /\ k_restConfig k = restConfig kCmd
  /\ k_traceImage k = traceImage kCmd
  /\ k_namespace k = NsName ns
  /\ k_socketPath k = socketPath kCmd
  /\ k_traceTimeout k = traceTimeout kCmd
  /\ k_outputDirectory k = outputDirectory kCmd.
Proof.
  intros Hns Hge. rewrite (Run_heap _ _ _ _ _ Hns), rangeTargetPods_heap.
  assert (Hcell : forall cell, k = tracerFor kCmd (NsName ns) cell ->
            k_clientset k = clientset kCmd
            /\ k_restConfig k = restConfig kCmd
            /\ k_traceImage k = traceImage kCmd
            /\ k_namespace k = NsName ns
            /\ k_socketPath k = socketPath kCmd
            /\ k_traceTimeout k = traceTimeout kCmd
            /\ k_outputDirectory k = outputDirectory kCmd)
    by (intros cell ->; repeat split).
  destruct sem; simpl; rewrite lookup_app_r by exact Hge; intros Hk.
  - apply lookup_replicate in Hk as [-> _]. eapply Hcell. reflexivity.
  - apply list_lookup_fmap_Some_1 in Hk as (cell & -> & _). repeat split.
Qed.

Lemma Run_tracers_carry_the_configuration_witness :
  CreateNamespace (Example.cluster []) (clientset Example.three)
  = (Some Example.runNamespace, None)
  /\ (length (tracerObjs emptyHeap) <= 2)%nat
  /\ tracerObjs (heapOf (Run PerLoop (Example.cluster []) Example.three emptyHeap)) !! 2%nat
     = Some (tracerFor Example.three "kstrace-x7k2p" 0%nat)
  /\ k_namespace (tracerFor Example.three "kstrace-x7k2p" 0%nat) = "kstrace-x7k2p"
  /\ k_outputDirectory (tracerFor Example.three "kstrace-x7k2p" 0%nat)
     = "strace-collection".
Proof.
  assert (Hk : tracerObjs (heapOf (Run PerLoop (Example.cluster []) Example.three
                                     emptyHeap)) !! 2%nat
               = Some (tracerFor Example.three "kstrace-x7k2p" 0%nat))
    by reflexivity.
  split; [reflexivity|]. split; [simpl; lia|]. split; [exact Hk|].
  pose proof (Run_tracers_carry_the_configuration PerLoop (Example.cluster [])
                Example.three emptyHeap Example.runNamespace 2%nat
                (tracerFor Example.three "kstrace-x7k2p" 0%nat)
                eq_refl ltac:(simpl; lia) Hk) as (_ & _ & _ & Hn & _ & _ & Ho).
  split; [exact Hn | exact Ho].
Defined.

(** X10. What each tracer built by [Run] refers to, for any list of
    target pods.  With one variable per iteration the tracer built for
    the i-th pod refers to that pod; with one variable for the whole loop
    every tracer built refers to the last pod of the list. *)
Theorem Run_target_of_each_tracer sem env kCmd h ns (i : nat) pod lastPod :
  CreateNamespace env (clientset kCmd) = (Some ns, None) ->
  targetPods kCmd !! i = Some pod ->
  last (targetPods kCmd) = Some lastPod ->
  targetOf (heapOf (Run sem env kCmd h)) (length (tracerObjs h) + i)%nat
  = match sem with
    | PerLoop => Some lastPod
    | PerIteration => Some pod
    end.
Proof.
  intros Hns Hi Hlast. rewrite (Run_heap _ _ _ _ _ Hns). destruct sem.
  - apply rangeTargetPods_PerLoop_target; [|exact Hlast].
    apply lookup_lt_Some in Hi. exact Hi.
  - apply rangeTargetPods_PerIteration_target. exact Hi.
Qed.

Lemma Run_target_of_each_tracer_witness :
  CreateNamespace (Example.cluster []) (clientset Example.three)
  = (Some Example.runNamespace, None)
  /\ targetPods Example.three !! 1%nat = Some Example.db
  /\ last (targetPods Example.three) = Some Example.mesh
  /\ targetOf (heapOf (Run PerIteration (Example.cluster []) Example.three emptyHeap))
       (length (tracerObjs emptyHeap) + 1)%nat
     = Some Example.db.
Proof.
  split; [reflexivity|]. split; [reflexivity|]. split; [reflexivity|].
  apply (Run_target_of_each_tracer PerIteration (Example.cluster []) Example.three
           emptyHeap Example.runNamespace 1%nat Example.db Example.mesh);
    reflexivity.
Defined.

(** X11. A run with a single target pod traces that pod, whichever the
    scope of the loop variable: sharing the variable only shows with two
    pods or more. *)
Theorem Run_single_target_is_traced sem env kCmd h ns pod :
  CreateNamespace env (clientset kCmd) = (Some ns, None) ->
  targetPods kCmd = [pod] ->
  tracers kCmd = [] ->
  exists r,
    traceOf (Run sem env kCmd h)
    = [CallCreateNamespace;
       CallNewKStracer (length (tracerObjs h));
       CallStart (length (tracerObjs h)) (Some pod) r;
       CallStop (length (tracerObjs h)) (Stop env (length (tracerObjs h)));
       CallCleanup (length (tracerObjs h)) (Cleanup env (length (tracerObjs h)));
       CallCleanupNamespace (NsName ns) (CleanupNamespace env (NsName ns))]
    /\ outcomeOf (Run sem env kCmd h) = Return r.
Proof.
  intros Hns Hpods Hts.
  assert (Htarget : targetOf (rangeTargetPods sem kCmd (NsName ns) h).1.1
                      (length (tracerObjs h)) = Some pod).
  { replace (length (tracerObjs h)) with (length (tracerObjs h) + 0)%nat by lia.
    destruct sem.
    - apply rangeTargetPods_PerLoop_target; rewrite Hpods; [simpl; lia | reflexivity].
    - apply rangeTargetPods_PerIteration_target. rewrite Hpods. reflexivity. }
  exists (Start env (length (tracerObjs h))).
  unfold Run. rewrite Hns.
  destruct (rangeTargetPods_shape sem kCmd (NsName ns) h) as (h' & Heq).
  rewrite Heq in *. cbn [fst snd] in Htarget.
  unfold allTracers. rewrite Hts, Hpods. cbn [tracers set_tracers length seq app].
  cbn [startTracers]. rewrite Htarget.
  destruct (Start env (length (tracerObjs h))); split; reflexivity.
Qed.

Lemma Run_single_target_is_traced_witness :
  CreateNamespace (Example.cluster []) (clientset (Example.validated [Example.web]))
  = (Some Example.runNamespace, None)
  /\ targetPods (Example.validated [Example.web]) = [Example.web]
  /\ tracers (Example.validated [Example.web]) = []
  /\ exists r,
       traceOf (Run PerLoop (Example.cluster []) (Example.validated [Example.web]) emptyHeap)
       = [CallCreateNamespace;
          CallNewKStracer 0%nat;
          CallStart 0%nat (Some Example.web) r;
          CallStop 0%nat None;
          CallCleanup 0%nat None;
          CallCleanupNamespace "kstrace-x7k2p" None]
       /\ outcomeOf (Run PerLoop (Example.cluster []) (Example.validated [Example.web])
                       emptyHeap) = Return r.
Proof.
  split; [reflexivity|]. split; [reflexivity|]. split; [reflexivity|].
  apply (Run_single_target_is_traced PerLoop (Example.cluster [])
           (Example.validated [Example.web]) emptyHeap Example.runNamespace Example.web);
    reflexivity.
Defined.

(** ** Run: the command and the trace *)

Lemma Run_command sem env kCmd h ns :
  CreateNamespace env (clientset kCmd) = (Some ns, None) ->
  commandOf (Run sem env kCmd h) = set_tracers kCmd (allTracers kCmd h).
Proof.
  intros Hns. destruct (Run_shape sem env kCmd h ns Hns) as (h' & st & ret & -> & _).
  reflexivity.
Qed.

(** X12. [Run] appends one new tracer per target pod to the tracers the
    command already holds, in the order of the pods and at locations that
    were free before; it changes nothing else in the command. *)
Theorem Run_appends_one_tracer_per_target sem env kCmd h ns :
  CreateNamespace env (clientset kCmd) = (Some ns, None) ->
  tracers (commandOf (Run sem env kCmd h))
  = (tracers kCmd ++ seq (length (tracerObjs h)) (length (targetPods kCmd)))%list
  /\ length (tracerObjs (heapOf (Run sem env kCmd h)))
     = (length (tracerObjs h) + length (targetPods kCmd))%nat
  /\ sameSettings kCmd (commandOf (Run sem env kCmd h))
  /\ targetPods (commandOf (Run sem env kCmd h)) = targetPods kCmd
  /\ traceTimeout (commandOf (Run sem env kCmd h)) = traceTimeout kCmd.
Proof.
  intros Hns. rewrite (Run_command _ _ _ _ _ Hns), (Run_heap _ _ _ _ _ Hns).
  rewrite rangeTargetPods_heap.
  split; [reflexivity|]. split.
  - destruct sem; simpl; rewrite length_app;
      [rewrite length_replicate | rewrite length_map, length_seq]; reflexivity.
  - unfold sameSettings. repeat split.
Qed.

Lemma Run_appends_one_tracer_per_target_witness :
  CreateNamespace Example.refusing (clientset Example.three)
  = (Some Example.runNamespace, None)
  /\ tracers (commandOf (Run PerLoop Example.refusing Example.three emptyHeap))
     = [0%nat; 1%nat; 2%nat]
  /\ length (tracerObjs (heapOf (Run PerLoop Example.refusing Example.three emptyHeap)))
     = 3%nat.
Proof.
  split; [reflexivity|].
  pose proof (Run_appends_one_tracer_per_target PerLoop Example.refusing Example.three
                emptyHeap Example.runNamespace eq_refl) as (Hts & Hlen & _).
  split; [exact Hts | exact Hlen].
Defined.

Lemma filter_constructions (p : Event -> bool) (ts : list loc) :
  (forall t, p (CallNewKStracer t) = false) ->
  List.filter p (map CallNewKStracer ts) = [].
Proof.
  intros Hp. induction ts as [|t ts IH]; simpl; [reflexivity|]. now rewrite Hp.
Qed.

Lemma count_starts env h (ts : list loc) :
  length (List.filter isStart (map (startEvent env h) ts)) = length ts
  /\ List.filter isStop (map (startEvent env h) ts) = []
  /\ List.filter isCleanup (map (startEvent env h) ts) = []
  /\ Forall (fun ev => isNamespaceCall ev = false) (map (startEvent env h) ts).
Proof.
  induction ts as [|t ts (IH1 & IH2 & IH3 & IH4)]; simpl.
  - repeat split. constructor.
  - rewrite IH1, IH2, IH3. repeat split. constructor; [reflexivity | exact IH4].
Qed.

Lemma count_teardowns env (ts : list loc) :
  List.filter isStart (flat_map (teardown env) ts) = []
  /\ length (List.filter isStop (flat_map (teardown env) ts)) = length ts
  /\ length (List.filter isCleanup (flat_map (teardown env) ts)) = length ts
  /\ Forall (fun ev => isNamespaceCall ev = false) (flat_map (teardown env) ts).
Proof.
  induction ts as [|t ts (IH1 & IH2 & IH3 & IH4)]; simpl.
  - repeat split. constructor.
  - rewrite IH1, IH2, IH3. repeat split. repeat constructor. exact IH4.
Qed.

(** X13. A run that got a namespace value never panics, whether or not
    an error came with it.  Its trace opens with [CreateNamespace] and
    closes with the one call of [CleanupNamespace], on the name of that
    value; in between there are as many [Stop] calls and as many
    [Cleanup] calls as [Start] calls. *)
Theorem Run_trace_is_balanced sem env kCmd h ns err :
  CreateNamespace env (clientset kCmd) = (Some ns, err) ->
  exists ret body,
    outcomeOf (Run sem env kCmd h) = Return ret
    /\ traceOf (Run sem env kCmd h)
       = CallCreateNamespace ::
         (body ++ [CallCleanupNamespace (NsName ns) (CleanupNamespace env (NsName ns))])%list
    /\ Forall (fun ev => isNamespaceCall ev = false) body
    /\ length (List.filter isStop body) = length (List.filter isStart body)
    /\ length (List.filter isCleanup body) = length (List.filter isStart body).
Proof.
  intros Hns. destruct err as [e|].
  - exists (Some e), []. unfold Run. rewrite Hns. simpl. repeat split. constructor.
  - destruct (Run_shape sem env kCmd h ns Hns) as (h' & started & ret & Heq & _).
    exists ret,
      (map CallNewKStracer (seq (length (tracerObjs h)) (length (targetPods kCmd)))
       ++ map (startEvent env h') started
       ++ flat_map (teardown env) (rev started))%list.
    rewrite Heq. unfold outcomeOf, traceOf. cbn [fst snd].
    destruct (count_starts env h' started) as (S1 & S2 & S3 & S4).
    destruct (count_teardowns env (rev started)) as (T1 & T2 & T3 & T4).
    rewrite !List.filter_app, !length_app.
    rewrite !filter_constructions by reflexivity.
    rewrite S1, S2, S3, T1, T2, T3, length_rev. simpl.
    split; [reflexivity|]. split; [now rewrite <- !app_assoc|].
    split; [|split; lia].
    apply Forall_app. split.
    + generalize (seq (length (tracerObjs h)) (length (targetPods kCmd))).
      intros ts. induction ts; simpl; constructor; [reflexivity | assumption].
    + apply Forall_app. split; assumption.
Qed.

Lemma Run_trace_is_balanced_witness :
  CreateNamespace Example.refusing (clientset Example.three)
  = (Some Example.runNamespace, None)
  /\ exists ret body,
       outcomeOf (Run PerLoop Example.refusing Example.three emptyHeap) = Return ret
       /\ traceOf (Run PerLoop Example.refusing Example.three emptyHeap)
          = CallCreateNamespace ::
            (body ++ [CallCleanupNamespace "kstrace-x7k2p"
                        (CleanupNamespace Example.refusing "kstrace-x7k2p")])%list
       /\ Forall (fun ev => isNamespaceCall ev = false) body
       /\ length (List.filter isStop body) = length (List.filter isStart body)
       /\ length (List.filter isCleanup body) = length (List.filter isStart body).
Proof.
  split; [reflexivity|].
  apply (Run_trace_is_balanced PerLoop Example.refusing Example.three emptyHeap
           Example.runNamespace None).
  reflexivity.
Defined.

Lemma Run_starts_the_first_tracer sem env kCmd h ns t rest :
  CreateNamespace env (clientset kCmd) = (Some ns, None) ->
  allTracers kCmd h = t :: rest ->
  In (startEvent env (heapOf (Run sem env kCmd h)) t) (traceOf (Run sem env kCmd h)).
Proof.
  intros Hns Hall.
  destruct (Run_shape sem env kCmd h ns Hns) as (h' & started & ret & Heq & Hcase).
  rewrite Heq. unfold heapOf, traceOf. cbn [fst snd].
  assert (Hin : In t started).
  { destruct Hcase as [(-> & _) | (l1 & t' & l2 & e & Hsplit & -> & _)].
    - rewrite Hall. left. reflexivity.
    - rewrite Hall in Hsplit. destruct l1 as [|a l1]; simpl in Hsplit.
      + injection Hsplit as -> _. left. reflexivity.
      + injection Hsplit as -> _. left. reflexivity. }
  right. apply in_or_app. right. apply in_or_app. left.
  apply in_map. exact Hin.
Qed.

(** X14. [Run] does not reset the tracers of the command.  Called again
    on the command and heap it left, it constructs a second tracer for
    every target pod, keeps those of the first call, and calls [Start]
    again on a tracer the first call had already started and torn
    down. *)
Theorem Run_again_restarts_earlier_tracers sem env kCmd h ns pod pods :
  CreateNamespace env (clientset kCmd) = (Some ns, None) ->
  tracers kCmd = [] ->
  targetPods kCmd = pod :: pods ->
  In (startEvent env (heapOf (Run sem env kCmd h)) (length (tracerObjs h)))
     (traceOf (Run sem env kCmd h))
  /\ In (CallCleanup (length (tracerObjs h)) (Cleanup env (length (tracerObjs h))))
        (traceOf (Run sem env kCmd h))
  /\ In (startEvent env
           (heapOf (Run sem env (commandOf (Run sem env kCmd h))
                      (heapOf (Run sem env kCmd h))))
           (length (tracerObjs h)))
        (traceOf (Run sem env (commandOf (Run sem env kCmd h))
                    (heapOf (Run sem env kCmd h))))
  /\ length (tracers (commandOf (Run sem env (commandOf (Run sem env kCmd h))
                                   (heapOf (Run sem env kCmd h)))))
     = (2 * length (targetPods kCmd))%nat.
Proof.
  intros Hns Hts Hpods.
  assert (Hall1 : allTracers kCmd h
                  = length (tracerObjs h) :: seq (S (length (tracerObjs h))) (length pods)).
  { unfold allTracers. rewrite Hts, Hpods. reflexivity. }
  pose proof (Run_command sem env kCmd h ns Hns) as Hcmd.
  assert (Hns2 : CreateNamespace env (clientset (commandOf (Run sem env kCmd h)))
                 = (Some ns, None)) by (rewrite Hcmd; exact Hns).
  split; [exact (Run_starts_the_first_tracer _ _ _ _ _ _ _ Hns Hall1)|].
  split.
  { destruct (Run_shape sem env kCmd h ns Hns) as (h' & started & ret & Heq & Hcase).
    rewrite Heq. unfold traceOf. cbn [snd].
    assert (Hin : In (length (tracerObjs h)) started).
    { destruct Hcase as [(-> & _) | (l1 & t' & l2 & e & Hsplit & -> & _)].
      - rewrite Hall1. left. reflexivity.
      - rewrite Hall1 in Hsplit. destruct l1 as [|a l1]; simpl in Hsplit;
          injection Hsplit as -> _; left; reflexivity. }
    right. apply in_or_app. right. apply in_or_app. right. apply in_or_app. left.
    apply in_flat_map. exists (length (tracerObjs h)). split.
    - apply in_rev. rewrite rev_involutive. exact Hin.
    - right. left. reflexivity. }
  split.
  - eapply Run_starts_the_first_tracer; [exact Hns2|].
    unfold allTracers. rewrite Hcmd. cbn [tracers set_tracers targetPods].
    rewrite Hall1. reflexivity.
  - rewrite (Run_command _ _ _ _ _ Hns2). cbn [tracers set_tracers].
    unfold allTracers at 1. rewrite Hcmd. cbn [tracers set_tracers targetPods].
    unfold allTracers. rewrite Hts. rewrite !length_app, !length_seq. simpl. lia.
Qed.

Lemma Run_again_restarts_earlier_tracers_witness :
  CreateNamespace (Example.cluster []) (clientset Example.three)
  = (Some Example.runNamespace, None)
  /\ tracers Example.three = []
  /\ targetPods Example.three = Example.web :: [Example.db; Example.mesh]
  /\ In (startEvent (Example.cluster [])
           (heapOf (Run PerIteration (Example.cluster [])
                      (commandOf (Run PerIteration (Example.cluster []) Example.three
                                    emptyHeap))
                      (heapOf (Run PerIteration (Example.cluster []) Example.three
                                 emptyHeap))))
           0%nat)
        (traceOf (Run PerIteration (Example.cluster [])
                    (commandOf (Run PerIteration (Example.cluster []) Example.three
                                  emptyHeap))
                    (heapOf (Run PerIteration (Example.cluster []) Example.three
                               emptyHeap)))).
Proof.
  split; [reflexivity|]. split; [reflexivity|]. split; [reflexivity|].
  exact (proj1 (proj2 (proj2
           (Run_again_restarts_earlier_tracers PerIteration (Example.cluster [])
              Example.three emptyHeap Example.runNamespace Example.web
              [Example.db; Example.mesh] eq_refl eq_refl eq_refl)))).
Defined.

(** ** RunE: a whole invocation *)

Lemma Complete_keeps_tracers env kCmd args :
  tracers (Complete env kCmd args).2 = tracers kCmd.
Proof.
  unfold Complete, configureClientset.
  destruct (ParseLevel env (logLevelStr kCmd)) as [lvl [e|]]; [reflexivity|].
  destruct (ClientConfig env) as [cfg [e|]]; [reflexivity|].
  cbn [restConfig set_restConfig].
  destruct (NewForConfig env cfg) as [cs [e|]]; [reflexivity|].
  destruct (KubeConfigNamespace env) as [namespace [e|]]; reflexivity.
Qed.

(** X15. An invocation in which every step succeeds, on a fresh command:
    [RunE] returns nil, at least one pod was resolved, and the calls into
    kstrace are the creation of the namespace, one construction and one
    [Start] per resolved pod in the order of resolution, [Stop] then
    [Cleanup] for each tracer from the last back to the first, and the
    deletion of the namespace. *)
Theorem RunE_successful_invocation sem env kCmd0 args h kCmd1 kCmd2 ns :
  tracers kCmd0 = [] ->
  Complete env kCmd0 args = (None, kCmd1) ->
  Validate env kCmd1 = (Return None, kCmd2) ->
  CreateNamespace env (clientset kCmd2) = (Some ns, None) ->
  Forall (fun t => Start env t = None)
    (seq (length (tracerObjs h)) (length (targetPods kCmd2))) ->
  (0 < length (targetPods kCmd2))%nat
  /\ outcomeOf (RunE sem env kCmd0 args h) = Return None
  /\ traceOf (RunE sem env kCmd0 args h)
     = CallCreateNamespace ::
       (map CallNewKStracer (seq (length (tracerObjs h)) (length (targetPods kCmd2)))
        ++ map (startEvent env (heapOf (RunE sem env kCmd0 args h)))
             (seq (length (tracerObjs h)) (length (targetPods kCmd2)))
        ++ flat_map (teardown env)
             (rev (seq (length (tracerObjs h)) (length (targetPods kCmd2))))
        ++ [CallCleanupNamespace (NsName ns) (CleanupNamespace env (NsName ns))])%list.
Proof.
  intros Hts Hc Hv Hns Hstart.
  assert (Hts2 : tracers kCmd2 = []).
  { destruct (Validate_success _ _ _ Hv) as (b & pod0 & rest & d & _ & _ & _ & ->).
    cbn [tracers set_traceTimeout set_targetPods].
    pose proof (Complete_keeps_tracers env kCmd0 args) as Hk. rewrite Hc in Hk.
    simpl in Hk. congruence. }
  split.
  { destruct (Validate_success _ _ _ Hv) as (b & pod0 & rest & d & _ & _ & _ & ->).
    simpl. lia. }
  assert (Hrun : RunE sem env kCmd0 args h = Run sem env kCmd2 h)
    by (unfold RunE; rewrite Hc, Hv; reflexivity).
  rewrite Hrun. unfold Run. rewrite Hns.
  destruct (rangeTargetPods_shape sem kCmd2 (NsName ns) h) as (h' & ->).
  cbn [tracers set_tracers]. unfold allTracers. rewrite Hts2. cbn [app].
  rewrite (startTracers_ok _ _ _ _ Hstart), runDefers_teardown.
  split; reflexivity.
Qed.

Lemma RunE_successful_invocation_witness :
  tracers NewKubeStraceDefaults = []
  /\ Complete (Example.cluster [Example.podItem Example.web; Example.podItem Example.db])
       NewKubeStraceDefaults ["web-1"; "db-1"]
     = (None, Example.completed ["web-1"; "db-1"] "0" "strace-collection")
  /\ (Validate (Example.cluster [Example.podItem Example.web; Example.podItem Example.db])
        (Example.completed ["web-1"; "db-1"] "0" "strace-collection")).1
     = Return None
  /\ outcomeOf
       (RunE PerIteration
          (Example.cluster [Example.podItem Example.web; Example.podItem Example.db])
          NewKubeStraceDefaults ["web-1"; "db-1"] emptyHeap)
     = Return None.
Proof.
  split; [reflexivity|]. split; [reflexivity|]. split; [reflexivity|].
  refine (proj1 (proj2
            (RunE_successful_invocation PerIteration
               (Example.cluster [Example.podItem Example.web; Example.podItem Example.db])
               NewKubeStraceDefaults ["web-1"; "db-1"] emptyHeap
               (Example.completed ["web-1"; "db-1"] "0" "strace-collection")
               (Validate
                  (Example.cluster [Example.podItem Example.web; Example.podItem Example.db])
                  (Example.completed ["web-1"; "db-1"] "0" "strace-collection")).2
               Example.runNamespace eq_refl eq_refl eq_refl eq_refl _))).
  repeat constructor.
Defined.


(** ** The trace timeout given as a bare number *)

Lemma digit_is_no_sign (c : ascii) :
  Time.isDigit c = true ->
  (Time.byte c =? Time.byte "-") = false
  /\ (Time.byte c =? Time.byte "+") = false
  /\ Time.isDot c = false.
Proof.
  unfold Time.isDigit, Time.isDot. intros H. apply andb_true_iff in H as [Hlo Hhi].
  apply Z.leb_le in Hlo. apply Z.leb_le in Hhi.
  change (Time.byte "0") with 48 in Hlo. change (Time.byte "9") with 57 in Hhi.
  change (Time.byte "-") with 45. change (Time.byte "+") with 43.
  change (Time.byte ".") with 46.
  repeat split; apply Z.eqb_neq; lia.
Qed.

Lemma leadingInt_loop_digits (s : string) : forall x,
  allDigits s = true ->
  Time.leadingInt_loop s x = None
  \/ exists v, Time.leadingInt_loop s x = Some (v, EmptyString).
Proof.
  induction s as [|c s IH]; intros x Hd; simpl.
  - right. eauto.
  - simpl in Hd. apply andb_true_iff in Hd as [Hc Hs]. rewrite Hc. simpl.
    destruct (x >? _); [left; reflexivity|].
    destruct (_ >? _); [left; reflexivity|].
    apply IH. exact Hs.
Qed.

Lemma ParseDuration_bare_number (s : string) :
  allDigits s = true ->
  s <> "0" ->
  exists e, Time.ParseDuration s = inl e.
Proof.
  intros Hd Hne. destruct s as [|c s].
  - eexists. reflexivity.
  - pose proof Hd as Hd'. simpl in Hd'. apply andb_true_iff in Hd' as [Hc Hs].
    destruct (digit_is_no_sign c Hc) as (Hminus & Hplus & Hdot).
    unfold Time.ParseDuration, Time.signOf. rewrite Hminus, Hplus. simpl orb. cbv iota.
    apply String.eqb_neq in Hne. rewrite Hne.
    replace (String.eqb (String c s) "") with false by reflexivity.
    cbn [String.length Time.parseGroups].
    unfold Time.parseGroup. rewrite Hdot, Hc. simpl negb. cbv iota.
    unfold Time.leadingInt.
    destruct (leadingInt_loop_digits (String c s) 0 Hd) as [-> | (v & ->)].
    + eexists. reflexivity.
    + simpl. eexists. reflexivity.
Qed.

(** X16. A trace timeout written as a bare number has no unit:
    [Validate] never returns nil for a timeout made of decimal digits
    only, the single digit zero apart. *)
Theorem Validate_rejects_bare_numbers env kCmd :
  allDigits (traceTimeoutStr kCmd) = true ->
  traceTimeoutStr kCmd <> "0" ->
  forall kCmd', Validate env kCmd <> (Return None, kCmd').
Proof.
  intros Hd Hne kCmd' Hv.
  destruct (Validate_success _ _ _ Hv) as (b & pod0 & rest & d & _ & _ & Hparse & _).
  destruct (ParseDuration_bare_number _ Hd Hne) as (e & He).
  rewrite He in Hparse. discriminate.
Qed.

Lemma Validate_rejects_bare_numbers_witness :
  allDigits (traceTimeoutStr (Example.completed ["web-1"] "30" "strace-collection")) = true
  /\ traceTimeoutStr (Example.completed ["web-1"] "30" "strace-collection") <> "0"
  /\ forall kCmd',
       Validate (Example.cluster [Example.podItem Example.web])
         (Example.completed ["web-1"] "30" "strace-collection")
       <> (Return None, kCmd').
Proof.
  assert (Hne : traceTimeoutStr (Example.completed ["web-1"] "30" "strace-collection")
                <> "0") by discriminate.
  split; [reflexivity|]. split; [exact Hne|].
  exact (Validate_rejects_bare_numbers (Example.cluster [Example.podItem Example.web])
           (Example.completed ["web-1"] "30" "strace-collection") eq_refl Hne).
Defined.

Lemma Validate_accepts_minus_witness :
  builder (Example.completed ["web-1"] "-1.5h" "strace-collection")
  = Some (mkBuilder "pod" ["web-1"] "default")
  /\ processResources (Example.cluster [Example.podItem Example.web])
       (mkBuilder "pod" ["web-1"] "default")
     = ([Example.web], None)
  /\ outputDirectory (Example.completed ["web-1"] "-1.5h" "strace-collection") <> "-"
  /\ Time.signOf "1.5h" = (false, "1.5h")
  /\ Time.ParseDuration "1.5h" = inr 5400000000000
  /\ Validate (Example.cluster [Example.podItem Example.web])
       (Example.completed ["web-1"] "-1.5h" "strace-collection")
     = (Return None,
        set_traceTimeout
          (set_targetPods (Example.completed ["web-1"] "-1.5h" "strace-collection")
             [Example.web])
          (- 5400000000000)).
Proof.
  assert (Hout : outputDirectory (Example.completed ["web-1"] "-1.5h" "strace-collection")
                 <> "-") by discriminate.
  assert (Hparse : Time.ParseDuration "1.5h" = inr 5400000000000)
    by (vm_compute; reflexivity).
  split; [reflexivity|]. split; [reflexivity|]. split; [exact Hout|].
  split; [reflexivity|]. split; [exact Hparse|].
  exact (Validate_accepts_minus (Example.cluster [Example.podItem Example.web])
           (Example.completed ["web-1"] "-1.5h" "strace-collection")
           (mkBuilder "pod" ["web-1"] "default") Example.web [] "1.5h" 5400000000000
           eq_refl eq_refl Hout eq_refl eq_refl Hparse).
Defined.

(** ** The defaults *)

(** X18. The defaults of [NewKubeStraceDefaults] pass validation: with
    the default trace timeout and output directory, [Validate] returns
    nil for every resolution that gives at least one pod, whatever the
    number of pods and of their containers, and the trace duration is
    zero. *)
Theorem defaults_pass_validation env kCmd b pod0 rest :
  traceTimeoutStr kCmd = traceTimeoutStr NewKubeStraceDefaults ->
  outputDirectory kCmd = outputDirectory NewKubeStraceDefaults ->
  builder kCmd = Some b ->
  processResources env b = (pod0 :: rest, None) ->
  Validate env kCmd
  = (Return None, set_traceTimeout (set_targetPods kCmd (pod0 :: rest)) 0).
Proof.
  intros Ht Ho Hb Hres. unfold Validate. rewrite Hb, Hres.
  cbn [targetPods set_targetPods outputDirectory traceTimeoutStr].
  rewrite Ht, Ho. cbn [outputDirectory traceTimeoutStr NewKubeStraceDefaults].
  replace (String.eqb "strace-collection" "-") with false by reflexivity.
  rewrite !andb_false_r.
  replace (Time.ParseDuration "0") with (@inr error Z 0) by reflexivity.
  reflexivity.
Qed.

Lemma defaults_pass_validation_witness :
  traceTimeoutStr (Example.completed ["mesh-1"; "web-1"] "0" "strace-collection")
  = traceTimeoutStr NewKubeStraceDefaults
  /\ outputDirectory (Example.completed ["mesh-1"; "web-1"] "0" "strace-collection")
     = outputDirectory NewKubeStraceDefaults
  /\ Validate
       (Example.cluster [Example.podItem Example.mesh; Example.podItem Example.web])
       (Example.completed ["mesh-1"; "web-1"] "0" "strace-collection")
     = (Return None,
        set_traceTimeout
          (set_targetPods (Example.completed ["mesh-1"; "web-1"] "0" "strace-collection")
             [Example.mesh; Example.web])
          0).
Proof.
  split; [reflexivity|]. split; [reflexivity|].
  exact (defaults_pass_validation
           (Example.cluster [Example.podItem Example.mesh; Example.podItem Example.web])
           (Example.completed ["mesh-1"; "web-1"] "0" "strace-collection")
           (mkBuilder "pod" ["mesh-1"; "web-1"] "default") Example.mesh [Example.web]
           eq_refl eq_refl eq_refl eq_refl).
Defined.

(** ** The console *)

Lemma Validate_console_success env kCmd kCmd' :
  Validate env kCmd = (Return None, kCmd') ->
  outputDirectory kCmd = "-" ->
  exists pod0,
    targetPods kCmd' = [pod0]
    /\ (length (Containers (Spec pod0)) <= 1)%nat
    /\ tracers kCmd' = tracers kCmd
    /\ clientset kCmd' = clientset kCmd
    /\ outputDirectory kCmd' = "-".
Proof.
  intros Hv Hout.
  destruct (Validate_success _ _ _ Hv) as (b & pod0 & rest & d & Hb & Hres & _ & ->).
  pose proof (Validate_resolved _ _ _ _ _ Hb Hres) as Hr.
  rewrite Hv, Hout in Hr. simpl String.eqb in Hr. rewrite !andb_true_r in Hr.
  cbn [fst] in Hr.
  destruct rest as [|pod1 rest]; [|discriminate].
  replace (1 <? length [pod0])%nat with false in Hr by reflexivity.
  destruct (1 <? length (Containers (Spec pod0)))%nat eqn:Hc; [discriminate|].
  apply Nat.ltb_ge in Hc.
  exists pod0. repeat split; [exact Hc | exact Hout].
Qed.

(** X19. A validated console run has a single writer: when the output is
    "-" and [Validate] returned nil, [Run] constructs exactly one tracer,
    its output destination is the console, and the pod it refers to when
    it is started is the one resolved pod, which has at most one
    container. *)
Theorem console_run_has_one_tracer sem env kCmd kCmd' h ns :
  outputDirectory kCmd = "-" ->
  tracers kCmd = [] ->
  Validate env kCmd = (Return None, kCmd') ->
  CreateNamespace env (clientset kCmd') = (Some ns, None) ->
  exists pod0,
    targetPods kCmd' = [pod0]
    /\ (length (Containers (Spec pod0)) <= 1)%nat
    /\ tracers (commandOf (Run sem env kCmd' h)) = [length (tracerObjs h)]
    /\ targetOf (heapOf (Run sem env kCmd' h)) (length (tracerObjs h)) = Some pod0
    /\ k_outputDirectory <$> (tracerObjs (heapOf (Run sem env kCmd' h))
                              !! length (tracerObjs h))
       = Some "-".
Proof.
  intros Hout Hts Hv Hns.
  destruct (Validate_console_success _ _ _ Hv Hout)
    as (pod0 & Hpods & Hlen & Hts' & _ & Hout').
  exists pod0. split; [exact Hpods|]. split; [exact Hlen|].
  rewrite (Run_command _ _ _ _ _ Hns), (Run_heap _ _ _ _ _ Hns).
  split.
  { cbn [tracers set_tracers]. unfold allTracers. rewrite Hts', Hts, Hpods. reflexivity. }
  split.
  { replace (length (tracerObjs h)) with (length (tracerObjs h) + 0)%nat by lia.
    destruct sem.
    - apply rangeTargetPods_PerLoop_target; rewrite Hpods; [simpl; lia | reflexivity].
    - apply rangeTargetPods_PerIteration_target. rewrite Hpods. reflexivity. }
  rewrite rangeTargetPods_heap, Hpods.
  destruct sem; simpl; rewrite lookup_app_r by lia;
    rewrite Nat.sub_diag; simpl; rewrite Hout'; reflexivity.
Qed.

Lemma console_run_has_one_tracer_witness :
  outputDirectory (Example.completed ["web-1"] "0" "-") = "-"
  /\ tracers (Example.completed ["web-1"] "0" "-") = []
  /\ Validate (Example.cluster [Example.podItem Example.web])
       (Example.completed ["web-1"] "0" "-")
     = (Return None,
        set_traceTimeout
          (set_targetPods (Example.completed ["web-1"] "0" "-") [Example.web]) 0)
  /\ exists pod0,
       targetPods
         (set_traceTimeout
            (set_targetPods (Example.completed ["web-1"] "0" "-") [Example.web]) 0)
       = [pod0]
       /\ (length (Containers (Spec pod0)) <= 1)%nat
       /\ tracers
            (commandOf
               (Run PerLoop (Example.cluster [Example.podItem Example.web])
                  (set_traceTimeout
                     (set_targetPods (Example.completed ["web-1"] "0" "-") [Example.web])
                     0)
                  emptyHeap))
          = [length (tracerObjs emptyHeap)]
       /\ targetOf
            (heapOf
               (Run PerLoop (Example.cluster [Example.podItem Example.web])
                  (set_traceTimeout
                     (set_targetPods (Example.completed ["web-1"] "0" "-") [Example.web])
                     0)
                  emptyHeap))
            (length (tracerObjs emptyHeap))
          = Some pod0
       /\ k_outputDirectory
            <$> (tracerObjs
                   (heapOf
                      (Run PerLoop (Example.cluster [Example.podItem Example.web])
                         (set_traceTimeout
                            (set_targetPods (Example.completed ["web-1"] "0" "-")
                               [Example.web])
                            0)
                         emptyHeap))
                 !! length (tracerObjs emptyHeap))
          = Some "-".
Proof.
  split; [reflexivity|]. split; [reflexivity|]. split; [reflexivity|].
  exact (console_run_has_one_tracer PerLoop
           (Example.cluster [Example.podItem Example.web])
           (Example.completed ["web-1"] "0" "-")
           (set_traceTimeout
              (set_targetPods (Example.completed ["web-1"] "0" "-") [Example.web]) 0)
           emptyHeap Example.runNamespace eq_refl eq_refl eq_refl eq_refl).
Defined.

(** ** Run without targets *)

(** X20. [Run] does not look at the number of target pods itself: on a
    command without target pods and without tracers it still creates the
    namespace and deletes it again, starts nothing and returns nil. *)
Theorem Run_without_targets sem env kCmd h ns :
  CreateNamespace env (clientset kCmd) = (Some ns, None) ->
  targetPods kCmd = [] ->
  tracers kCmd = [] ->
  outcomeOf (Run sem env kCmd h) = Return None
  /\ traceOf (Run sem env kCmd h)
     = [CallCreateNamespace;
        CallCleanupNamespace (NsName ns) (CleanupNamespace env (NsName ns))]
  /\ tracers (commandOf (Run sem env kCmd h)) = [].
Proof.
  intros Hns Hpods Hts. unfold Run. rewrite Hns.
  destruct (rangeTargetPods_shape sem kCmd (NsName ns) h) as (h' & ->).
  unfold allTracers. rewrite Hpods, Hts. repeat split.
Qed.

Lemma Run_without_targets_witness :
  CreateNamespace (Example.cluster []) (clientset (Example.validated []))
  = (Some Example.runNamespace, None)
  /\ targetPods (Example.validated []) = []
  /\ tracers (Example.validated []) = []
  /\ outcomeOf (Run PerLoop (Example.cluster []) (Example.validated []) emptyHeap)
     = Return None
  /\ traceOf (Run PerLoop (Example.cluster []) (Example.validated []) emptyHeap)
     = [CallCreateNamespace; CallCleanupNamespace "kstrace-x7k2p" None]
  /\ tracers (commandOf (Run PerLoop (Example.cluster []) (Example.validated [])
                           emptyHeap)) = [].
Proof.
  split; [reflexivity|]. split; [reflexivity|]. split; [reflexivity|].
  exact (Run_without_targets PerLoop (Example.cluster []) (Example.validated [])
           emptyHeap Example.runNamespace eq_refl eq_refl eq_refl).
Defined.
